(** * Google Pay UPI intent flow (gpay.js): model and properties

    The script is event driven: a click handler builds a PaymentRequest,
    probes it, arms a twenty minute timer and presents the payment sheet;
    every further piece of code is a callback that the browser runs when a
    promise settles or the timer fires.  The development below embeds each
    function and each callback of gpay.js as a transformer of an explicit
    world (the two DOM elements, location.href, the browser objects the
    attempt created and the log of calls made), and lets the browser choose
    which callback runs next.  One attempt is followed, from the click that
    starts it to the last callback of its request. *)

From Stdlib Require Import ZArith List String Ascii Bool Lia.
From Stdlib Require Import DecimalString DecimalZ.
Import ListNotations.

Local Open Scope string_scope.
Local Open Scope Z_scope.

(** ** Strings and numbers as the script uses them *)

(** A JavaScript string is kept as the bytes of its UTF-8 form; every
    literal of gpay.js is ASCII. *)

(** [Number_toString n] is the text that string concatenation produces for
    an integral Number [n]: decimal digits, a leading minus sign for a
    negative value.  (The exponent form starts at 1e21, far above any time
    value: those are bounded by 8.64e15 in absolute value.) *)
Definition Number_toString (n : Z) : string :=
  NilEmpty.string_of_int (Z.to_int n).

(** Characters that encodeURIComponent leaves alone:
    A-Z a-z 0-9 - _ . ! ~ * ' ( ) *)
Definition isUnreserved (c : ascii) : bool :=
  let n := nat_of_ascii c in
  ((65 <=? n) && (n <=? 90) || (97 <=? n) && (n <=? 122)
   || (48 <=? n) && (n <=? 57))%nat
  || existsb (Ascii.eqb c)
       ["-"; "_"; "."; "!"; "~"; "*"; "'"; "("; ")"]%char.

(** Upper-case hexadecimal digit of a value below sixteen. *)
Definition hexDigit (n : nat) : ascii :=
  if (n <? 10)%nat then ascii_of_nat (48 + n) else ascii_of_nat (55 + n).

Definition percentEscape (c : ascii) : string :=
  let n := nat_of_ascii c in
  String "%" (String (hexDigit (n / 16)) (String (hexDigit (n mod 16)) EmptyString)).

(** encodeURIComponent on the UTF-8 bytes of its argument: an unreserved
    character is copied, every other byte becomes [%XX]. *)
Fixpoint encodeURIComponent (s : string) : string :=
  match s with
  | EmptyString => EmptyString
  | String c rest =>
      if isUnreserved c then String c (encodeURIComponent rest)
      else percentEscape c ++ encodeURIComponent rest
  end.

Definition isUpperHex (c : ascii) : bool :=
  let n := nat_of_ascii c in
  ((48 <=? n) && (n <=? 57) || (65 <=? n) && (n <=? 70))%nat.

(** The shape of a percent-encoded component: unreserved characters and
    escapes made of a percent sign and two upper-case hexadecimal digits. *)
Inductive percent_encoded : string -> Prop :=
| pe_empty : percent_encoded EmptyString
| pe_plain c s :
    isUnreserved c = true -> percent_encoded s -> percent_encoded (String c s)
| pe_escape h l s :
    isUpperHex h = true -> isUpperHex l = true -> percent_encoded s ->
    percent_encoded (String "%" (String h (String l s))).

(** ** Configuration (gpay.js lines 10-19) *)

Definition AMOUNT : string := "1.00".

Record MerchantConfig := {
  pa : string;  (* payee VPA *)
  pn : string;  (* payee name *)
  mc : string;  (* merchant category code *)
  tn : string   (* transaction note *)
}.

Definition MERCHANT_CONFIG : MerchantConfig := {|
  pa := "9110190178@okbizaxis";
  pn := "Ms. Priya Kumari";
  mc := "5977";
  tn := "Payment"
|}.

(** generateTransactionReferenceID; [now] is what Date.now() returns. *)
Definition generateTransactionReferenceID (now : Z) : string :=
  "TXN" ++ Number_toString now.

(** ** JavaScript values the script handles *)

(** Plain data: the object literals of onBuyClicked and the opaque details
    of a payment response. *)
#[local] Set Warnings "-register-all".
Inductive json :=
| JString (s : string)
| JArray (items : list json)
| JObject (members : list (string * json)).

Definition lowerHexDigit (n : nat) : ascii :=
  if (n <? 10)%nat then ascii_of_nat (48 + n) else ascii_of_nat (87 + n).

(** QuoteJSONString, character by character. *)
Definition escapeJSONChar (c : ascii) : string :=
  let n := nat_of_ascii c in
  let bs := "092"%char in
  let two (x : ascii) := String bs (String x EmptyString) in
  if (n =? 34)%nat then two "034"%char
  else if (n =? 92)%nat then two bs
  else if (n =? 8)%nat then two "b"%char
  else if (n =? 9)%nat then two "t"%char
  else if (n =? 10)%nat then two "n"%char
  else if (n =? 12)%nat then two "f"%char
  else if (n =? 13)%nat then two "r"%char
  else if (n <? 32)%nat then
    String bs ("u00" ++ String (lowerHexDigit (n / 16))
                          (String (lowerHexDigit (n mod 16)) EmptyString))
  else String c EmptyString.

Fixpoint escapeJSONString (s : string) : string :=
  match s with
  | EmptyString => EmptyString
  | String c rest => escapeJSONChar c ++ escapeJSONString rest
  end.

Definition quoteJSONString (s : string) : string :=
  String "034" (escapeJSONString s ++ String "034" EmptyString).

(** JSON.stringify on plain data (no indentation argument). *)
Fixpoint JSON_stringify (v : json) : string :=
  match v with
  | JString s => quoteJSONString s
  | JArray items =>
      "[" ++ (fix elements (l : list json) : string :=
                match l with
                | [] => EmptyString
                | [x] => JSON_stringify x
                | x :: r => JSON_stringify x ++ "," ++ elements r
                end) items ++ "]"
  | JObject members =>
      "{" ++ (fix properties (l : list (string * json)) : string :=
                match l with
                | [] => EmptyString
                | [(k, x)] => quoteJSONString k ++ ":" ++ JSON_stringify x
                | (k, x) :: r =>
                    quoteJSONString k ++ ":" ++ JSON_stringify x ++ ","
                    ++ properties r
                end) members ++ "}"
  end.

(** An exception or rejection reason: the two properties the script reads. *)
Record JsError := { name : string; message : string }.

(** Error.prototype.toString, which ['...' + err] calls. *)
Definition Error_toString (e : JsError) : string :=
  if String.eqb (name e) EmptyString then message e
  else if String.eqb (message e) EmptyString then name e
  else name e ++ ": " ++ message e.

(** What a PaymentResponse carries that the script touches. *)
Record PaymentResponse := { details : json }.

(** Outcome of [new PaymentRequest(methodData, details)]: the request (of
    which only its JSON text is ever looked at) or the exception thrown. *)
Inductive construction :=
| Constructed (requestJSON : string)
| Throws (e : JsError).

(** Arguments handed to console.log and console.error. *)
Inductive jsval :=
| VString (s : string)
| VError (e : JsError)
| VData (d : json).

(** ** The world *)

(** Everything the script does to its surroundings, in the order done. *)
Inductive effect :=
| ConsoleLog (args : list jsval)
| ConsoleError (args : list jsval)
| ShowStatus (message type : string)
| SetDisabled (b : bool)
| Navigate (url : string)
| Construct (methodData details : json)
| CallCanMakePayment
| CallShow
| CallAbort
| CallComplete (result : string)
| CallSetTimeout (ms : Z)
| CallClearTimeout.

(** The DOM elements and the location the script writes to. *)
Record Page := {
  gpayButton_disabled : bool;
  statusMessage_textContent : string;
  statusMessage_className : string;
  location_href : string
}.

Inductive promise := NotCreated | Pending | Fulfilled | Rejected.

Inductive timer := NoTimer | Armed (delay : Z) | Fired | Cleared.

(** The browser objects of one attempt: the promises returned by
    request.canMakePayment(), request.show(), request.abort() and
    paymentResponse.complete(), and the timer held in [paymentTimeout]. *)
Record Attempt := {
  clicked : bool;
  canMakePaymentP : promise;
  paymentTimeout : timer;
  showP : promise;
  abortP : promise;
  completeP : promise
}.

Record World := {
  page : Page;
  attempt : Attempt;
  trace : list effect
}.

Definition Handler := World -> World.

Definition seq (f g : Handler) : Handler := fun w => g (f w).
Notation "f ;; g" := (seq f g) (at level 61, right associativity).

Definition skip : Handler := fun w => w.

Definition emit (e : effect) : Handler := fun w =>
  {| page := page w; attempt := attempt w; trace := trace w ++ [e] |}.

Definition onPage (f : Page -> Page) : Handler := fun w =>
  {| page := f (page w); attempt := attempt w; trace := trace w |}.

Definition onAttempt (f : Attempt -> Attempt) : Handler := fun w =>
  {| page := page w; attempt := f (attempt w); trace := trace w |}.

Definition set_clicked (a : Attempt) : Attempt :=
  {| clicked := true; canMakePaymentP := canMakePaymentP a;
     paymentTimeout := paymentTimeout a; showP := showP a;
     abortP := abortP a; completeP := completeP a |}.

Definition set_canMakePaymentP (p : promise) (a : Attempt) : Attempt :=
  {| clicked := clicked a; canMakePaymentP := p;
     paymentTimeout := paymentTimeout a; showP := showP a;
     abortP := abortP a; completeP := completeP a |}.

Definition set_paymentTimeout (t : timer) (a : Attempt) : Attempt :=
  {| clicked := clicked a; canMakePaymentP := canMakePaymentP a;
     paymentTimeout := t; showP := showP a;
     abortP := abortP a; completeP := completeP a |}.

Definition set_showP (p : promise) (a : Attempt) : Attempt :=
  {| clicked := clicked a; canMakePaymentP := canMakePaymentP a;
     paymentTimeout := paymentTimeout a; showP := p;
     abortP := abortP a; completeP := completeP a |}.

Definition set_abortP (p : promise) (a : Attempt) : Attempt :=
  {| clicked := clicked a; canMakePaymentP := canMakePaymentP a;
     paymentTimeout := paymentTimeout a; showP := showP a;
     abortP := p; completeP := completeP a |}.

Definition set_completeP (p : promise) (a : Attempt) : Attempt :=
  {| clicked := clicked a; canMakePaymentP := canMakePaymentP a;
     paymentTimeout := paymentTimeout a; showP := showP a;
     abortP := abortP a; completeP := p |}.

(** *** DOM and browser operations *)

Definition console_log (args : list jsval) : Handler := emit (ConsoleLog args).

Definition console_error (args : list jsval) : Handler :=
  emit (ConsoleError args).

(** [gpayButton.disabled = b] *)
Definition set_gpayButton_disabled (b : bool) : Handler :=
  emit (SetDisabled b) ;;
  onPage (fun p =>
    {| gpayButton_disabled := b;
       statusMessage_textContent := statusMessage_textContent p;
       statusMessage_className := statusMessage_className p;
       location_href := location_href p |}).

(** [globalThis.location.href = url] *)
Definition set_location_href (url : string) : Handler :=
  emit (Navigate url) ;;
  onPage (fun p =>
    {| gpayButton_disabled := gpayButton_disabled p;
       statusMessage_textContent := statusMessage_textContent p;
       statusMessage_className := statusMessage_className p;
       location_href := url |}).

(** [globalThis.setTimeout(callback, ms)], its handle stored in
    [paymentTimeout]. *)
Definition setTimeout (ms : Z) : Handler :=
  emit (CallSetTimeout ms) ;; onAttempt (set_paymentTimeout (Armed ms)).

(** [globalThis.clearTimeout(paymentTimeout)]: cancels a timer that is still
    armed and does nothing to one that has fired or was cleared. *)
Definition clearTimeout : Handler :=
  emit CallClearTimeout ;;
  onAttempt (fun a =>
    match paymentTimeout a with
    | Armed _ => set_paymentTimeout Cleared a
    | _ => a
    end).

Definition request_canMakePayment : Handler :=
  emit CallCanMakePayment ;; onAttempt (set_canMakePaymentP Pending).

Definition request_show : Handler :=
  emit CallShow ;; onAttempt (set_showP Pending).

Definition request_abort : Handler :=
  emit CallAbort ;; onAttempt (set_abortP Pending).

Definition paymentResponse_complete (result : string) : Handler :=
  emit (CallComplete result) ;; onAttempt (set_completeP Pending).

(** ** The functions of gpay.js *)

(** showStatus (lines 34-37) *)
Definition showStatus (message type : string) : Handler :=
  emit (ShowStatus message type) ;;
  onPage (fun p =>
    {| gpayButton_disabled := gpayButton_disabled p;
       statusMessage_textContent := message;
       statusMessage_className := type;
       location_href := location_href p |}).

(** The URI built by handleNotReadyToPay (line 57). *)
Definition deepLink (now : Z) : string :=
  "gpay://upi/pay?pa=" ++ encodeURIComponent (pa MERCHANT_CONFIG)
  ++ "&pn=" ++ encodeURIComponent (pn MERCHANT_CONFIG)
  ++ "&am=" ++ AMOUNT
  ++ "&cu=INR&tr=" ++ generateTransactionReferenceID now.

(** handleNotReadyToPay (lines 55-59) *)
Definition handleNotReadyToPay (now : Z) : Handler :=
  set_location_href (deepLink now).

(** processResponse (lines 111-125), up to the call of complete. *)
Definition processResponse (paymentResponse : PaymentResponse) : Handler :=
  let responseData := details paymentResponse in
  console_log [VString "Payment Response:"; VData responseData] ;;
  paymentResponse_complete "success".

(** The callbacks chained on [paymentResponse.complete('success')]. *)
Definition onCompleteFulfilled : Handler :=
  showStatus "Payment successful!" "success".

Definition onCompleteRejected (err : JsError) : Handler :=
  console_error [VString "Error completing payment:"; VError err] ;;
  showStatus "Error completing payment." "error".

(** The function given to setTimeout (lines 73-83), up to the call of
    abort, and the two callbacks chained on [request.abort()]. *)
Definition onPaymentTimeout : Handler :=
  clearTimeout ;; request_abort.

Definition onAbortFulfilled : Handler :=
  console_log [VString "Payment timed out after 20 minutes."] ;;
  showStatus "Payment timed out." "error".

Definition onAbortRejected : Handler :=
  console_log [VString "Unable to abort, user is in the process of paying."].

(** showPaymentUI (lines 66-105), up to the call of show.  [request] is the
    request of the attempt, whose promises and timer the world holds. *)
Definition showPaymentUI (canMakePayment : bool) : Handler :=
  if negb canMakePayment then skip
  else setTimeout (20 * 60 * 1000) ;; request_show.

(** The callbacks chained on [request.show()]: then, catch, finally. *)
Definition onShowFulfilled (paymentResponse : PaymentResponse) : Handler :=
  clearTimeout ;; processResponse paymentResponse.

Definition onShowRejected (err : JsError) (now : Z) : Handler :=
  clearTimeout ;;
  if String.eqb (name err) "NotSupportedError" then handleNotReadyToPay now
  else if String.eqb (name err) "AbortError" then
    showStatus "Payment was cancelled." "info"
  else
    console_log [VError err] ;;
    showStatus ("Payment failed: " ++ message err) "error".

Definition onShowFinally : Handler :=
  set_gpayButton_disabled false.

(** The object literals of onBuyClicked (lines 140-161). *)
Definition supportedInstruments (transactionId : string) : json :=
  JArray [JObject [
    ("supportedMethods", JArray [JString "https://tez.google.com/pay"]);
    ("data", JObject [
       ("pa", JString (pa MERCHANT_CONFIG));
       ("pn", JString (pn MERCHANT_CONFIG));
       ("tr", JString transactionId);
       ("url", JString "https://google.com");
       ("mc", JString (mc MERCHANT_CONFIG));
       ("tn", JString (tn MERCHANT_CONFIG))])]].

Definition orderDetails : json :=
  JObject [
    ("total", JObject [
       ("label", JString "Total");
       ("amount", JObject [
          ("currency", JString "INR");
          ("value", JString AMOUNT)])])].

(** onBuyClicked (lines 130-188), up to the call of canMakePayment.
    [PaymentRequest] is [globalThis.PaymentRequest]: absent, or the
    constructor; [now] is what Date.now() returns. *)
Definition onBuyClicked
    (PaymentRequest : option (json -> json -> construction)) (now : Z)
    : Handler :=
  match PaymentRequest with
  | None =>
      console_log [VString "Web payments are not supported in this browser."] ;;
      showStatus "Web payments are not supported in this browser." "error"
  | Some new_PaymentRequest =>
      let transactionId := generateTransactionReferenceID now in
      let instruments := supportedInstruments transactionId in
      let details := orderDetails in
      emit (Construct instruments details) ;;
      match new_PaymentRequest instruments details with
      | Throws e =>
          console_log [VString ("Payment Request Error: " ++ message e)] ;;
          showStatus ("Payment Request Error: " ++ message e) "error"
      | Constructed requestJSON =>
          console_log [VString ("Payment Request: " ++ requestJSON)] ;;
          console_log
            [VString ("Payment Request: " ++ JSON_stringify instruments)] ;;
          console_log
            [VString ("Payment Request: " ++ JSON_stringify details)] ;;
          set_gpayButton_disabled true ;;
          showStatus "Checking payment availability..." "info" ;;
          request_canMakePayment
      end
  end.

(** The callbacks chained on [request.canMakePayment()]. *)
Definition onCanMakePaymentFulfilled (result : bool) : Handler :=
  showPaymentUI result.

Definition onCanMakePaymentRejected (err : JsError) : Handler :=
  console_log [VString ("Error calling canMakePayment: " ++ Error_toString err)] ;;
  showStatus "Error checking payment availability." "error" ;;
  set_gpayButton_disabled false.

(** ** The browser's side: which callback runs next *)

(** One event is one callback run by the browser.  The then-or-catch
    callback of request.show() and the finally callback behind it form one
    event: the finally callback only writes gpayButton.disabled, which no
    callback that could run in between reads or writes, so running it at
    once loses no interleaving.  Which callback runs next, and with what
    value, is the browser's choice; the script runs no callback itself. *)
Inductive event :=
| Click (PaymentRequest : option (json -> json -> construction)) (now : Z)
| CanMakePaymentResolved (result : bool)
| CanMakePaymentRejected (err : JsError)
| TimerFired (elapsed : Z)
| ShowResolved (paymentResponse : PaymentResponse)
| ShowRejected (err : JsError) (now : Z)
| AbortResolved
| AbortRejected
| CompleteResolved
| CompleteRejected (err : JsError).

(** [step e w] is the world after the browser has run the callback of [e],
    or [None] when the browser cannot deliver [e] in [w]: a click needs an
    enabled button (and starts the one attempt that is followed); a promise
    settles once, after it was created; a timer fires once, not before its
    delay has elapsed and not after it was cleared. *)
Definition step (e : event) (w : World) : option World :=
  let a := attempt w in
  match e with
  | Click PaymentRequest now =>
      if clicked a || gpayButton_disabled (page w) then None
      else Some ((onAttempt set_clicked ;; onBuyClicked PaymentRequest now) w)
  | CanMakePaymentResolved result =>
      match canMakePaymentP a with
      | Pending =>
          Some ((onAttempt (set_canMakePaymentP Fulfilled) ;;
                 onCanMakePaymentFulfilled result) w)
      | _ => None
      end
  | CanMakePaymentRejected err =>
      match canMakePaymentP a with
      | Pending =>
          Some ((onAttempt (set_canMakePaymentP Rejected) ;;
                 onCanMakePaymentRejected err) w)
      | _ => None
      end
  | TimerFired elapsed =>
      match paymentTimeout a with
      | Armed delay =>
          if delay <=? elapsed then
            Some ((onAttempt (set_paymentTimeout Fired) ;; onPaymentTimeout) w)
          else None
      | _ => None
      end
  | ShowResolved paymentResponse =>
      match showP a with
      | Pending =>
          Some ((onAttempt (set_showP Fulfilled) ;;
                 onShowFulfilled paymentResponse ;; onShowFinally) w)
      | _ => None
      end
  | ShowRejected err now =>
      match showP a with
      | Pending =>
          Some ((onAttempt (set_showP Rejected) ;;
                 onShowRejected err now ;; onShowFinally) w)
      | _ => None
      end
  | AbortResolved =>
      match abortP a with
      | Pending =>
          Some ((onAttempt (set_abortP Fulfilled) ;; onAbortFulfilled) w)
      | _ => None
      end
  | AbortRejected =>
      match abortP a with
      | Pending =>
          Some ((onAttempt (set_abortP Rejected) ;; onAbortRejected) w)
      | _ => None
      end
  | CompleteResolved =>
      match completeP a with
      | Pending =>
          Some ((onAttempt (set_completeP Fulfilled) ;; onCompleteFulfilled) w)
      | _ => None
      end
  | CompleteRejected err =>
      match completeP a with
      | Pending =>
          Some ((onAttempt (set_completeP Rejected) ;;
                 onCompleteRejected err) w)
      | _ => None
      end
  end.

(** A sequence of events, delivered in order. *)
Fixpoint run (es : list event) (w : World) : option World :=
  match es with
  | [] => Some w
  | e :: rest =>
      match step e w with
      | Some w' => run rest w'
      | None => None
      end
  end.

(** The world when the page has loaded, whatever the load handler (lines
    194-198) left in the status: nothing of an attempt exists. *)
Definition noAttempt : Attempt :=
  {| clicked := false; canMakePaymentP := NotCreated; paymentTimeout := NoTimer;
     showP := NotCreated; abortP := NotCreated; completeP := NotCreated |}.

Definition loaded (p : Page) : World :=
  {| page := p; attempt := noAttempt; trace := [] |}.

(** ** What can be said of a world *)

(** The writes [gpayButton.disabled = false] made so far. *)
Definition isEnable (e : effect) : bool :=
  match e with
  | SetDisabled false => true
  | _ => false
  end.

Definition enables (w : World) : nat :=
  List.length (filter isEnable (trace w)).

(** The callbacks that settle an attempt: the rejection of the probe, and
    the fulfilment or rejection of the presentation (a user's cancellation,
    the abort after a timeout, an unsupported method and any other error
    all arrive as a rejection of show()). *)
Definition settles (e : event) : bool :=
  match e with
  | CanMakePaymentRejected _ | ShowResolved _ | ShowRejected _ _ => true
  | _ => false
  end.

Definition settled (a : Attempt) : bool :=
  match canMakePaymentP a, showP a with
  | Rejected, _ | _, Fulfilled | _, Rejected => true
  | _, _ => false
  end.

(** The callbacks on the timer's side of the race. *)
Definition timerSide (e : event) : bool :=
  match e with
  | TimerFired _ | AbortResolved | AbortRejected => true
  | _ => false
  end.

Definition isTimerFired (e : event) : bool :=
  match e with
  | TimerFired _ => true
  | _ => false
  end.

(** The callbacks on the presentation's side of the race. *)
Definition presentationSide (e : event) : bool :=
  match e with
  | ShowResolved _ | ShowRejected _ _ | CompleteResolved | CompleteRejected _ =>
      true
  | _ => false
  end.

(** The callbacks through which the promise of show() settles. *)
Definition showSettles (e : event) : bool :=
  match e with
  | ShowResolved _ | ShowRejected _ _ => true
  | _ => false
  end.

Definition isShowStatus (e : effect) : bool :=
  match e with
  | ShowStatus _ _ => true
  | _ => false
  end.

(** The calls of showStatus made so far. *)
Definition statusWrites (w : World) : nat :=
  List.length (filter isShowStatus (trace w)).

(** Does the callback of [e], run in [w], call showStatus? *)
Definition writesStatus (e : event) (w : World) : bool :=
  match step e w with
  | Some w' => negb (statusWrites w' =? statusWrites w)%nat
  | None => false
  end.

(** Did a callback of the given side call showStatus during the run? *)
Fixpoint sideWrote (side : event -> bool) (es : list event) (w : World) : bool :=
  match es with
  | [] => false
  | e :: rest =>
      match step e w with
      | Some w' => (side e && writesStatus e w) || sideWrote side rest w'
      | None => false
      end
  end.

(** Between [gpayButton.disabled = true] and the write that undoes it. *)
Definition busy (a : Attempt) : bool :=
  match canMakePaymentP a, showP a with
  | Pending, _ | Fulfilled, NotCreated | Fulfilled, Pending => true
  | _, _ => false
  end.

(** The combinations of promise and timer states an attempt can be in. *)
Inductive reachableShape : Attempt -> Prop :=
| shape_idle : reachableShape noAttempt
| shape_refused :
    reachableShape
      {| clicked := true; canMakePaymentP := NotCreated;
         paymentTimeout := NoTimer; showP := NotCreated;
         abortP := NotCreated; completeP := NotCreated |}
| shape_probing :
    reachableShape
      {| clicked := true; canMakePaymentP := Pending;
         paymentTimeout := NoTimer; showP := NotCreated;
         abortP := NotCreated; completeP := NotCreated |}
| shape_probe_failed :
    reachableShape
      {| clicked := true; canMakePaymentP := Rejected;
         paymentTimeout := NoTimer; showP := NotCreated;
         abortP := NotCreated; completeP := NotCreated |}
| shape_ineligible :
    reachableShape
      {| clicked := true; canMakePaymentP := Fulfilled;
         paymentTimeout := NoTimer; showP := NotCreated;
         abortP := NotCreated; completeP := NotCreated |}
| shape_presenting :
    reachableShape
      {| clicked := true; canMakePaymentP := Fulfilled;
         paymentTimeout := Armed 1200000; showP := Pending;
         abortP := NotCreated; completeP := NotCreated |}
| shape_aborting ab :
    ab <> NotCreated ->
    reachableShape
      {| clicked := true; canMakePaymentP := Fulfilled;
         paymentTimeout := Fired; showP := Pending;
         abortP := ab; completeP := NotCreated |}
| shape_rejected_in_time :
    reachableShape
      {| clicked := true; canMakePaymentP := Fulfilled;
         paymentTimeout := Cleared; showP := Rejected;
         abortP := NotCreated; completeP := NotCreated |}
| shape_fulfilled_in_time co :
    co <> NotCreated ->
    reachableShape
      {| clicked := true; canMakePaymentP := Fulfilled;
         paymentTimeout := Cleared; showP := Fulfilled;
         abortP := NotCreated; completeP := co |}
| shape_rejected_late ab :
    ab <> NotCreated ->
    reachableShape
      {| clicked := true; canMakePaymentP := Fulfilled;
         paymentTimeout := Fired; showP := Rejected;
         abortP := ab; completeP := NotCreated |}
| shape_fulfilled_late ab co :
    ab <> NotCreated -> co <> NotCreated ->
    reachableShape
      {| clicked := true; canMakePaymentP := Fulfilled;
         paymentTimeout := Fired; showP := Fulfilled;
         abortP := ab; completeP := co |}.

(** What holds of every world the browser can bring about. *)
Record Inv (w : World) : Prop := {
  inv_shape : reachableShape (attempt w);
  inv_button :
    clicked (attempt w) = true ->
    gpayButton_disabled (page w) = busy (attempt w);
  inv_enables : enables w = if settled (attempt w) then 1%nat else 0%nat
}.

(** ** The eligibility hint (gpay.js lines 43-50 and 194-198) *)

(** Canonicalize of a case-insensitive pattern without the unicode flag:
    an ASCII lower-case letter becomes its upper-case letter; no other byte
    changes, and no byte of a character outside ASCII equals an ASCII one. *)
Definition canonicalize (c : ascii) : ascii :=
  let n := nat_of_ascii c in
  if ((97 <=? n) && (n <=? 122))%nat then ascii_of_nat (n - 32) else c.

Fixpoint canonical (s : string) : string :=
  match s with
  | EmptyString => EmptyString
  | String c rest => String (canonicalize c) (canonical rest)
  end.

(** Does the input start with the pattern, letter case apart? *)
Fixpoint matchesAt (pattern input : string) : bool :=
  match pattern, input with
  | EmptyString, _ => true
  | String _ _, EmptyString => false
  | String p ps, String c cs =>
      Ascii.eqb (canonicalize p) (canonicalize c) && matchesAt ps cs
  end.

(** [/pattern/i.test(input)] for a pattern of literal characters: a match
    is tried at every position of the input, from the left. *)
Fixpoint RegExp_test_i (pattern input : string) : bool :=
  matchesAt pattern input
  || match input with
     | EmptyString => false
     | String _ rest => RegExp_test_i pattern rest
     end.

(** isGPaySupported (lines 43-50); [userAgent] is navigator.userAgent. *)
Definition isGPaySupported
    (PaymentRequest : option (json -> json -> construction))
    (userAgent : string) : bool :=
  match PaymentRequest with
  | None => false
  | Some _ =>
      let isAndroid := RegExp_test_i "Android" userAgent in
      let isChrome := RegExp_test_i "Chrome" userAgent in
      isAndroid && isChrome
  end.

(** The DOMContentLoaded listener (lines 194-198). *)
Definition onDOMContentLoaded
    (PaymentRequest : option (json -> json -> construction))
    (userAgent : string) : Handler :=
  if negb (isGPaySupported PaymentRequest userAgent) then
    showStatus
      "Note: Google Pay UPI Intent is only supported on Chrome for Android."
      "info"
  else skip.

(** The input contains the pattern at some position, letter case apart. *)
Definition containsIgnoringCase (pattern input : string) : Prop :=
  exists before found after,
    input = before ++ found ++ after /\ canonical found = canonical pattern.

(** ** Counting calls *)

Definition calls (f : effect -> bool) (w : World) : nat :=
  List.length (filter f (trace w)).

Definition isConstruct (e : effect) : bool :=
  match e with Construct _ _ => true | _ => false end.

Definition isCallCanMakePayment (e : effect) : bool :=
  match e with CallCanMakePayment => true | _ => false end.

Definition isCallShow (e : effect) : bool :=
  match e with CallShow => true | _ => false end.

Definition isCallSetTimeout (e : effect) : bool :=
  match e with CallSetTimeout _ => true | _ => false end.

Definition isCallAbort (e : effect) : bool :=
  match e with CallAbort => true | _ => false end.

Definition isCallComplete (e : effect) : bool :=
  match e with CallComplete _ => true | _ => false end.

Definition isNavigate (e : effect) : bool :=
  match e with Navigate _ => true | _ => false end.

(** One when the promise exists, zero before. *)
Definition created (p : promise) : nat :=
  match p with
  | NotCreated => 0
  | _ => 1
  end.

(** The arguments the script passes where it has a choice. *)
Definition wellFormedCall (e : effect) : Prop :=
  match e with
  | ShowStatus _ type => type = "success" \/ type = "error" \/ type = "info"
  | CallSetTimeout ms => ms = 1200000
  | CallComplete result => result = "success"
  | _ => True
  end.

(** What the log of calls and the promises of an attempt say of each
    other. *)
Definition CallInv (w : World) : Prop :=
  (calls isConstruct w <= Nat.b2n (clicked (attempt w)))%nat /\
  (created (canMakePaymentP (attempt w)) <= calls isConstruct w)%nat /\
  calls isCallCanMakePayment w = created (canMakePaymentP (attempt w)) /\
  calls isCallShow w = created (showP (attempt w)) /\
  calls isCallSetTimeout w = created (showP (attempt w)) /\
  calls isCallAbort w = created (abortP (attempt w)) /\
  calls isCallComplete w = created (completeP (attempt w)) /\
  Forall wellFormedCall (trace w).


(** The callback of a successful abort. *)
Definition isAbortResolved (e : event) : bool :=
  match e with
  | AbortResolved => true
  | _ => false
  end.

(** The rejection of the presentation that leads to the deep link. *)
Definition isUnsupportedRejection (e : event) : bool :=
  match e with
  | ShowRejected err _ => String.eqb (name err) "NotSupportedError"
  | _ => false
  end.

(** Where the page is, for an attempt started on a page at [href]. *)
Definition NavInv (href : string) (w : World) : Prop :=
  (calls isNavigate w = 0%nat /\ location_href (page w) = href) \/
  (calls isNavigate w = 1%nat /\ showP (attempt w) = Rejected /\
   exists now, location_href (page w) = deepLink now).

(** ** Several attempts on one page *)

(** The page and the log are shared; every click that gets through starts
    an attempt with a request, promises and a timer of its own. *)
Record Session := {
  s_page : Page;
  s_attempts : list Attempt;
  s_trace : list effect
}.

Inductive sessionEvent :=
| Start (PaymentRequest : option (json -> json -> construction)) (now : Z)
| Callback (i : nat) (e : event).

Fixpoint replaceNth {A : Type} (i : nat) (x : A) (l : list A) : list A :=
  match l, i with
  | [], _ => []
  | _ :: rest, O => x :: rest
  | y :: rest, S j => y :: replaceNth j x rest
  end.

(** The world as the callbacks of attempt [a] see it. *)
Definition worldOf (s : Session) (a : Attempt) : World :=
  {| page := s_page s; attempt := a; trace := s_trace s |}.

Definition sessionStep (ev : sessionEvent) (s : Session) : option Session :=
  match ev with
  | Start PaymentRequest now =>
      match step (Click PaymentRequest now) (worldOf s noAttempt) with
      | Some w =>
          Some {| s_page := page w;
                  s_attempts := s_attempts s ++ [attempt w];
                  s_trace := trace w |}
      | None => None
      end
  | Callback i e =>
      match nth_error (s_attempts s) i with
      | Some a =>
          match step e (worldOf s a) with
          | Some w =>
              Some {| s_page := page w;
                      s_attempts := replaceNth i (attempt w) (s_attempts s);
                      s_trace := trace w |}
          | None => None
          end
      | None => None
      end
  end.

Fixpoint sessionRun (evs : list sessionEvent) (s : Session) : option Session :=
  match evs with
  | [] => Some s
  | ev :: rest =>
      match sessionStep ev s with
      | Some s' => sessionRun rest s'
      | None => None
      end
  end.

Definition sessionLoaded (p : Page) : Session :=
  {| s_page := p; s_attempts := []; s_trace := [] |}.

(** The attempts in flight: started, and neither refused nor settled. *)
Definition inFlight (s : Session) : nat :=
  List.length (filter busy (s_attempts s)).

(** Every attempt of the session has a reachable shape, and the button is
    disabled exactly when one attempt, and then only one, is in flight. *)
Definition SInv (s : Session) : Prop :=
  Forall (fun a => reachableShape a /\ clicked a = true) (s_attempts s) /\
  ((gpayButton_disabled (s_page s) = false /\ inFlight s = 0%nat) \/
   (gpayButton_disabled (s_page s) = true /\ inFlight s = 1%nat)).

(** ** Sample inputs *)

Module Samples.

Definition shopPage : Page :=
  {| gpayButton_disabled := false;
     statusMessage_textContent := EmptyString;
     statusMessage_className := EmptyString;
     location_href := "https://shop.example/" |}.

(** A browser whose PaymentRequest constructor accepts the arguments. *)
Definition accepting : option (json -> json -> construction) :=
  Some (fun _ _ => Constructed "{}").

(** A browser whose PaymentRequest constructor throws. *)
Definition refusing : option (json -> json -> construction) :=
  Some (fun _ _ =>
          Throws {| name := "TypeError"; message := "Invalid payment method" |}).

Definition abortError : JsError :=
  {| name := "AbortError"; message := "The website has aborted the payment" |}.

Definition receipt : PaymentResponse :=
  {| details := JObject [("tezResponse", JString "SUCCESS")] |}.

(** The sheet is on screen: probe answered true, timer armed. *)
Definition presenting : World :=
  {| page := {| gpayButton_disabled := true;
                statusMessage_textContent := "Checking payment availability...";
                statusMessage_className := "info";
                location_href := "https://shop.example/" |};
     attempt := {| clicked := true; canMakePaymentP := Fulfilled;
                   paymentTimeout := Armed 1200000; showP := Pending;
                   abortP := NotCreated; completeP := NotCreated |};
     trace := [] |}.

(** The sheet stays open for twenty minutes: the timer fires, the abort
    succeeds, and the browser rejects the presentation with AbortError.
    The callback of abort() hangs on its promise directly and the rejection
    callback of show() one link down its chain, so the former runs first. *)
Definition timedOut : list event :=
  [Click accepting 1700000000000; CanMakePaymentResolved true;
   TimerFired 1200000; AbortResolved; ShowRejected abortError 1700001200000].

(** Expected JSON texts are written with apostrophes for the quotes. *)
Fixpoint quoted (s : string) : string :=
  match s with
  | EmptyString => EmptyString
  | String c rest =>
      String (if Ascii.eqb c "'" then "034"%char else c) (quoted rest)
  end.

(** What the user sees: button, status text, status class. *)
Definition shown (w : option World) : option (bool * string * string) :=
  option_map
    (fun w => (gpayButton_disabled (page w),
               statusMessage_textContent (page w),
               statusMessage_className (page w))) w.

End Samples.

(** * Properties *)

(** ** Sample evaluations *)

Example txn_sample :
  generateTransactionReferenceID 1700000000000 = "TXN1700000000000".
Proof. reflexivity. Qed.

Example txn_zero : generateTransactionReferenceID 0 = "TXN0".
Proof. reflexivity. Qed.

Example encode_pa :
  encodeURIComponent (pa MERCHANT_CONFIG) = "9110190178%40okbizaxis".
Proof. reflexivity. Qed.

Example encode_pn :
  encodeURIComponent (pn MERCHANT_CONFIG) = "Ms.%20Priya%20Kumari".
Proof. reflexivity. Qed.

Example stringify_details :
  JSON_stringify orderDetails =
  Samples.quoted
    "{'total':{'label':'Total','amount':{'currency':'INR','value':'1.00'}}}".
Proof. vm_compute. reflexivity. Qed.

Example stringify_instruments :
  JSON_stringify (supportedInstruments "TXN1700000000000") =
  Samples.quoted
    "[{'supportedMethods':['https://tez.google.com/pay'],'data':{'pa':'9110190178@okbizaxis','pn':'Ms. Priya Kumari','tr':'TXN1700000000000','url':'https://google.com','mc':'5977','tn':'Payment'}}]".
Proof. vm_compute. reflexivity. Qed.

Example attempt_succeeds :
  Samples.shown
    (run [Click Samples.accepting 1700000000000; CanMakePaymentResolved true;
          ShowResolved Samples.receipt; CompleteResolved]
       (loaded Samples.shopPage))
  = Some (false, "Payment successful!", "success").
Proof. vm_compute. reflexivity. Qed.

Example attempt_cancelled_by_user :
  Samples.shown
    (run [Click Samples.accepting 1700000000000; CanMakePaymentResolved true;
          ShowRejected Samples.abortError 1700000005000]
       (loaded Samples.shopPage))
  = Some (false, "Payment was cancelled.", "info").
Proof. vm_compute. reflexivity. Qed.

Example attempt_falls_back_to_deep_link :
  option_map (fun w => (gpayButton_disabled (page w), location_href (page w)))
    (run [Click Samples.accepting 1700000000000; CanMakePaymentResolved true;
          ShowRejected {| name := "NotSupportedError";
                          message := "The payment method is not supported" |}
                       1700000000123]
       (loaded Samples.shopPage))
  = Some (false,
          "gpay://upi/pay?pa=9110190178%40okbizaxis&pn=Ms.%20Priya%20Kumari&am=1.00&cu=INR&tr=TXN1700000000123").
Proof. vm_compute. reflexivity. Qed.

Example attempt_fails_in_the_sheet :
  Samples.shown
    (run [Click Samples.accepting 1700000000000; CanMakePaymentResolved true;
          ShowRejected {| name := "InvalidStateError"; message := "busy" |} 0]
       (loaded Samples.shopPage))
  = Some (false, "Payment failed: busy", "error").
Proof. vm_compute. reflexivity. Qed.

Example probe_is_rejected :
  Samples.shown
    (run [Click Samples.accepting 1700000000000;
          CanMakePaymentRejected {| name := "NotAllowedError"; message := "no" |}]
       (loaded Samples.shopPage))
  = Some (false, "Error checking payment availability.", "error").
Proof. vm_compute. reflexivity. Qed.

Example abort_fails_and_user_pays :
  Samples.shown
    (run [Click Samples.accepting 1700000000000; CanMakePaymentResolved true;
          TimerFired 1200003; AbortRejected;
          ShowResolved Samples.receipt; CompleteResolved]
       (loaded Samples.shopPage))
  = Some (false, "Payment successful!", "success").
Proof. vm_compute. reflexivity. Qed.

Example timer_cannot_fire_early :
  run [Click Samples.accepting 1700000000000; CanMakePaymentResolved true;
       TimerFired 1199999] (loaded Samples.shopPage) = None.
Proof. vm_compute. reflexivity. Qed.

Example timer_cannot_fire_after_settlement :
  run [Click Samples.accepting 1700000000000; CanMakePaymentResolved true;
       ShowResolved Samples.receipt; TimerFired 1200000]
      (loaded Samples.shopPage) = None.
Proof. vm_compute. reflexivity. Qed.

(** ** Transaction references and the deep link *)

Section References.

Lemma Number_toString_inj (a b : Z) :
  Number_toString a = Number_toString b -> a = b.
Proof.
  unfold Number_toString; intros H.
  apply DecimalZ.to_int_inj.
  assert (E : Some (Z.to_int a) = Some (Z.to_int b))
    by (rewrite <- (NilEmpty.isi (Z.to_int a)), H; apply NilEmpty.isi).
  now injection E.
Qed.

Lemma generateTransactionReferenceID_inj (a b : Z) :
  generateTransactionReferenceID a = generateTransactionReferenceID b -> a = b.
Proof.
  unfold generateTransactionReferenceID; simpl; intros H.
  apply Number_toString_inj; congruence.
Qed.

Lemma percentEscape_hex (c : ascii) :
  isUpperHex (hexDigit (nat_of_ascii c / 16)) = true /\
  isUpperHex (hexDigit (nat_of_ascii c mod 16)) = true.
Proof. destruct c as [[] [] [] [] [] [] [] []]; split; reflexivity. Qed.

Lemma encodeURIComponent_percent_encoded (s : string) :
  percent_encoded (encodeURIComponent s).
Proof.
  induction s as [|c s IH]; simpl.
  - constructor.
  - destruct (isUnreserved c) eqn:U.
    + now apply pe_plain.
    + destruct (percentEscape_hex c) as [Hh Hl].
      unfold percentEscape; simpl. now apply pe_escape.
Qed.

End References.

(** C9: the transaction reference is the tag TXN followed by the decimal
    text of the timestamp, and two attempts started at different timestamps
    get different references. *)
Theorem transaction_reference_distinct (t1 t2 : Z) :
  t1 <> t2 ->
  generateTransactionReferenceID t1 = "TXN" ++ Number_toString t1 /\
  generateTransactionReferenceID t2 = "TXN" ++ Number_toString t2 /\
  generateTransactionReferenceID t1 <> generateTransactionReferenceID t2.
Proof.
  intros Hne; repeat split.
  intros E; apply Hne, generateTransactionReferenceID_inj, E.
Qed.

Lemma transaction_reference_distinct_witness :
  generateTransactionReferenceID 1700000000000 = "TXN1700000000000" /\
  generateTransactionReferenceID 1700000000001 = "TXN1700000000001" /\
  generateTransactionReferenceID 1700000000000
    <> generateTransactionReferenceID 1700000000001.
Proof.
  apply (transaction_reference_distinct 1700000000000 1700000000001).
  discriminate.
Defined.

(** C10: the deep-link fallback navigates to
    gpay://upi/pay?pa=<payee>&pn=<name>&am=<amount>&cu=INR&tr=<reference>
    where payee and name are the percent-encoded configuration values and
    the reference is not empty. *)
Theorem deep_link_fallback_uri (now : Z) (w : World) :
  let uri := location_href (page (handleNotReadyToPay now w)) in
  let payee := encodeURIComponent (pa MERCHANT_CONFIG) in
  let payeeName := encodeURIComponent (pn MERCHANT_CONFIG) in
  let reference := generateTransactionReferenceID now in
  uri = "gpay://upi/pay?pa=" ++ payee ++ "&pn=" ++ payeeName
        ++ "&am=1.00&cu=INR&tr=" ++ reference /\
  trace (handleNotReadyToPay now w) = (trace w ++ [Navigate uri])%list /\
  payee = "9110190178%40okbizaxis" /\ percent_encoded payee /\
  payeeName = "Ms.%20Priya%20Kumari" /\ percent_encoded payeeName /\
  reference <> EmptyString.
Proof.
  cbv zeta; repeat split.
  - apply encodeURIComponent_percent_encoded.
  - apply encodeURIComponent_percent_encoded.
  - unfold generateTransactionReferenceID; simpl; discriminate.
Qed.

(** ** Running handlers on a symbolic world *)

(** Texts stay as the script writes them while handlers are run. *)
Arguments deepLink : simpl never.
Arguments generateTransactionReferenceID : simpl never.
Arguments JSON_stringify : simpl never.
Arguments supportedInstruments : simpl never.
Arguments orderDetails : simpl never.
Arguments Error_toString : simpl never.
Arguments String.append : simpl never.

Lemma seq_apply (f g : Handler) (w : World) : (f ;; g) w = g (f w).
Proof. reflexivity. Qed.

Lemma skip_apply (w : World) : skip w = w.
Proof. reflexivity. Qed.

Lemma page_emit (e : effect) (w : World) : page (emit e w) = page w.
Proof. reflexivity. Qed.

Lemma attempt_emit (e : effect) (w : World) : attempt (emit e w) = attempt w.
Proof. reflexivity. Qed.

Lemma trace_emit (e : effect) (w : World) :
  trace (emit e w) = (trace w ++ [e])%list.
Proof. reflexivity. Qed.

Lemma page_onPage (f : Page -> Page) (w : World) :
  page (onPage f w) = f (page w).
Proof. reflexivity. Qed.

Lemma attempt_onPage (f : Page -> Page) (w : World) :
  attempt (onPage f w) = attempt w.
Proof. reflexivity. Qed.

Lemma trace_onPage (f : Page -> Page) (w : World) :
  trace (onPage f w) = trace w.
Proof. reflexivity. Qed.

Lemma page_onAttempt (f : Attempt -> Attempt) (w : World) :
  page (onAttempt f w) = page w.
Proof. reflexivity. Qed.

Lemma attempt_onAttempt (f : Attempt -> Attempt) (w : World) :
  attempt (onAttempt f w) = f (attempt w).
Proof. reflexivity. Qed.

Lemma trace_onAttempt (f : Attempt -> Attempt) (w : World) :
  trace (onAttempt f w) = trace w.
Proof. reflexivity. Qed.

Create Rewrite HintDb world.
#[export] Hint Rewrite seq_apply skip_apply page_emit attempt_emit trace_emit
  page_onPage attempt_onPage trace_onPage page_onAttempt attempt_onAttempt
  trace_onAttempt : world.

(** Reads page, attempt and trace off a chain of handlers, one projection
    at a time. *)
Ltac exec :=
  unfold onShowFinally, onShowFulfilled, onCanMakePaymentFulfilled,
    onCanMakePaymentRejected, showPaymentUI, onPaymentTimeout, onAbortFulfilled,
    onAbortRejected, onCompleteFulfilled, onCompleteRejected, processResponse,
    handleNotReadyToPay, showStatus, set_gpayButton_disabled, set_location_href,
    setTimeout, clearTimeout, request_canMakePayment, request_show,
    request_abort, paymentResponse_complete, console_log, console_error;
  autorewrite with world;
  cbv beta delta [set_clicked set_canMakePaymentP set_paymentTimeout set_showP
                  set_abortP set_completeP noAttempt];
  cbn [page attempt trace gpayButton_disabled statusMessage_textContent
       statusMessage_className location_href clicked canMakePaymentP
       paymentTimeout showP abortP completeP details negb];
  change (20 * 60 * 1000) with 1200000;
  rewrite <- ?app_assoc; cbn [app].

Ltac count_enables :=
  unfold enables, settled in *; exec;
  rewrite ?filter_app, ?List.length_app in *; simpl in *; lia.

Ltac close_Inv :=
  repeat match goal with
         | H : true = true -> _ |- _ => specialize (H eq_refl)
         end;
  split; exec;
  [ solve [ constructor; congruence ]
  | solve [ intros _; unfold busy in *; simpl in *; congruence ]
  | solve [ count_enables ] ].

(** Splits the guards of [step] in hypothesis [H] until the next world is
    known. *)
Ltac next_world H :=
  repeat match type of H with
         | (if ?c then _ else _) = Some _ =>
             destruct c eqn:?; try discriminate H
         | match ?x with _ => _ end = Some _ =>
             destruct x eqn:?; try discriminate H
         end;
  injection H as <-.

(** Splits the branches the handler in the goal takes. *)
Ltac branches :=
  unfold onBuyClicked, onShowRejected, onCanMakePaymentFulfilled,
    showPaymentUI;
  repeat match goal with
         | |- context [match ?x with Some _ => _ | None => _ end] => destruct x
         | |- context [match ?x with Constructed _ => _ | Throws _ => _ end] =>
             destruct x
         | |- context [if ?c then _ else _] => destruct c
         end.

(** ** What one callback does *)

Section Callbacks.

Lemma step_ShowRejected_inv err now w w' :
  step (ShowRejected err now) w = Some w' ->
  showP (attempt w) = Pending /\
  w' = onShowFinally (onShowRejected err now (onAttempt (set_showP Rejected) w)).
Proof.
  unfold step. destruct (showP (attempt w)); intros H; inversion H; auto.
Qed.

End Callbacks.

(** C5: when the presentation rejects, the callback looks at the name of the
    error only.  NotSupportedError: the page navigates to the deep link and
    the status is left as it was.  AbortError: the status becomes
    "Payment was cancelled." (info).  Any other name: the status becomes
    "Payment failed: " followed by the error's message (error).  In each
    case the timer is cleared first and the button is enabled last. *)
Theorem show_rejection_classified (err : JsError) (now : Z) (w w' : World) :
  step (ShowRejected err now) w = Some w' ->
  (name err = "NotSupportedError" ->
     trace w' = (trace w ++ [CallClearTimeout; Navigate (deepLink now);
                            SetDisabled false])%list /\
     location_href (page w') = deepLink now /\
     statusMessage_textContent (page w') = statusMessage_textContent (page w) /\
     statusMessage_className (page w') = statusMessage_className (page w)) /\
  (name err = "AbortError" ->
     trace w' = (trace w ++ [CallClearTimeout;
                            ShowStatus "Payment was cancelled." "info";
                            SetDisabled false])%list /\
     location_href (page w') = location_href (page w) /\
     statusMessage_textContent (page w') = "Payment was cancelled." /\
     statusMessage_className (page w') = "info") /\
  (name err <> "NotSupportedError" -> name err <> "AbortError" ->
     trace w' = (trace w ++ [CallClearTimeout; ConsoleLog [VError err];
                            ShowStatus ("Payment failed: " ++ message err) "error";
                            SetDisabled false])%list /\
     location_href (page w') = location_href (page w) /\
     statusMessage_textContent (page w') = "Payment failed: " ++ message err /\
     statusMessage_className (page w') = "error").
Proof.
  intros H. apply step_ShowRejected_inv in H as [_ ->].
  unfold onShowRejected. split; [|split].
  - intros E. apply String.eqb_eq in E. rewrite E.
    repeat split; exec; reflexivity.
  - intros E. rewrite E.
    change (String.eqb "AbortError" "NotSupportedError") with false.
    change (String.eqb "AbortError" "AbortError") with true.
    repeat split; exec; reflexivity.
  - intros E1 E2.
    apply String.eqb_neq in E1, E2. rewrite E1, E2.
    repeat split; exec; reflexivity.
Qed.

Lemma show_rejection_classified_witness :
  let err := {| name := "NetworkError"; message := "offline" |} in
  let w' := onShowFinally
              (onShowRejected err 0
                 (onAttempt (set_showP Rejected) Samples.presenting)) in
  step (ShowRejected err 0) Samples.presenting = Some w' /\
  statusMessage_textContent (page w') = "Payment failed: offline" /\
  statusMessage_className (page w') = "error".
Proof.
  cbv zeta. split; [reflexivity|].
  destruct (show_rejection_classified
              {| name := "NetworkError"; message := "offline" |} 0
              Samples.presenting _ eq_refl) as (_ & _ & H).
  destruct H as (_ & _ & H1 & H2); [discriminate | discriminate |].
  split; [exact H1 | exact H2].
Defined.

(** ** The click handler *)

(** C8: without a PaymentRequest global the click handler only logs and
    sets the status to "Web payments are not supported in this browser."
    (error): it constructs no request, creates no promise or timer and
    leaves button and location alone. *)
Theorem no_payment_request_global (now : Z) (w : World) :
  let w' := onBuyClicked None now w in
  trace w' =
    (trace w ++
     [ConsoleLog [VString "Web payments are not supported in this browser."];
      ShowStatus "Web payments are not supported in this browser." "error"])%list /\
  statusMessage_textContent (page w') =
    "Web payments are not supported in this browser." /\
  statusMessage_className (page w') = "error" /\
  gpayButton_disabled (page w') = gpayButton_disabled (page w) /\
  location_href (page w') = location_href (page w) /\
  attempt w' = attempt w /\
  (forall methodData details,
     In (Construct methodData details) (trace w') ->
     In (Construct methodData details) (trace w)).
Proof.
  unfold onBuyClicked; cbv zeta.
  repeat split; exec; try reflexivity.
  intros m d H. apply in_app_or in H as [H|H]; [exact H|].
  simpl in H. destruct H as [H|[H|[]]]; discriminate H.
Qed.

(** ** Worlds the browser can bring about *)

Section Reachable.

Lemma Inv_loaded (p : Page) : Inv (loaded p).
Proof. split; simpl; [constructor | discriminate | reflexivity]. Qed.

Lemma step_preserves_Inv (e : event) (w w' : World) :
  Inv w -> step e w = Some w' -> Inv w'.
Proof.
  intros [Hs Hb He] H. destruct w as [pg a tr]; simpl in *.
  inversion Hs; subst a; simpl in *;
    destruct e; unfold step in H; simpl in H; try discriminate H;
    next_world H; branches; close_Inv.
Qed.

Lemma run_app (es1 es2 : list event) (w : World) :
  run (es1 ++ es2) w =
  match run es1 w with
  | Some w1 => run es2 w1
  | None => None
  end.
Proof.
  revert w; induction es1 as [|e es1 IH]; intros w; simpl; [reflexivity|].
  destruct (step e w); [apply IH | reflexivity].
Qed.

Lemma run_preserves_Inv (es : list event) (w w' : World) :
  Inv w -> run es w = Some w' -> Inv w'.
Proof.
  revert w; induction es as [|e es IH]; intros w HI H; simpl in H.
  - now injection H as <-.
  - destruct (step e w) as [w1|] eqn:E; [|discriminate H].
    eapply IH; [eapply step_preserves_Inv; eassumption | exact H].
Qed.

Lemma Inv_reachable (p : Page) (es : list event) (w : World) :
  run es (loaded p) = Some w -> Inv w.
Proof. apply run_preserves_Inv, Inv_loaded. Qed.

(** A run that passes through event [e]: the worlds before and after it. *)
Lemma run_through (es1 es2 : list event) (e : event) (w0 w : World) :
  run (es1 ++ e :: es2) w0 = Some w ->
  exists w1 w2,
    run es1 w0 = Some w1 /\ step e w1 = Some w2 /\ run es2 w2 = Some w.
Proof.
  rewrite run_app. destruct (run es1 w0) as [w1|]; [|discriminate].
  simpl. destruct (step e w1) as [w2|] eqn:E; [|discriminate].
  intros H; exists w1, w2; auto.
Qed.

Lemma step_settles (e : event) (w w' : World) :
  settles e = true -> step e w = Some w' -> settled (attempt w') = true.
Proof.
  intros He H. destruct w as [pg [c cm t sp ab co] tr].
  destruct e; try discriminate He; unfold step in H; simpl in H;
    next_world H; unfold settled; branches; exec;
    destruct cm, t; reflexivity.
Qed.

Lemma Inv_settled (w : World) :
  Inv w -> settled (attempt w) = true ->
  gpayButton_disabled (page w) = false /\ enables w = 1%nat.
Proof.
  intros [Hs Hb He] H. rewrite H in He. split; [|exact He].
  destruct w as [pg a tr]; simpl in *.
  inversion Hs; subst a; try discriminate H; exact (Hb eq_refl).
Qed.

Lemma settled_stable (e : event) (w w' : World) :
  Inv w -> settled (attempt w) = true -> step e w = Some w' ->
  settled (attempt w') = true.
Proof.
  intros HI Hset H.
  pose proof (step_preserves_Inv _ _ _ HI H) as [_ _ He'].
  destruct HI as [_ _ He]. rewrite Hset in He.
  destruct (settled (attempt w')); [reflexivity|].
  (* no step removes an entry of the trace *)
  exfalso. revert He He' H. unfold enables.
  destruct w as [pg a tr]; intros He He' H.
  destruct e; unfold step in H; cbn [attempt page] in H; next_world H;
    revert He'; branches; exec;
    rewrite ?filter_app, ?List.length_app; cbn [trace] in *; simpl; lia.
Qed.

Lemma run_settled_stable (es : list event) (w w' : World) :
  Inv w -> settled (attempt w) = true -> run es w = Some w' ->
  settled (attempt w') = true.
Proof.
  revert w; induction es as [|e es IH]; intros w HI Hs H; simpl in H.
  - now injection H as <-.
  - destruct (step e w) as [w1|] eqn:E; [|discriminate H].
    eapply IH; [eapply step_preserves_Inv; eassumption
               | eapply settled_stable; eassumption | exact H].
Qed.

End Reachable.

(** C1: once the callback that settles an attempt has run (the probe was
    rejected, or the presentation was fulfilled or rejected, which is how
    success, cancellation, the abort after a timeout, the deep-link fallback
    and any other error arrive), the button is enabled, and the script has
    written [gpayButton.disabled = false] exactly once; this holds right
    after the callback and after every later callback of the attempt. *)
Theorem trigger_enabled_once_after_settlement
    (p : Page) (es1 es2 : list event) (e : event) (w : World) :
  settles e = true ->
  run (es1 ++ e :: es2) (loaded p) = Some w ->
  gpayButton_disabled (page w) = false /\ enables w = 1%nat.
Proof.
  intros He H. apply run_through in H as (w1 & w2 & H1 & H2 & H3).
  pose proof (Inv_reachable _ _ _ H1) as I1.
  pose proof (step_preserves_Inv _ _ _ I1 H2) as I2.
  apply Inv_settled.
  - eapply run_preserves_Inv; eassumption.
  - eapply run_settled_stable; [exact I2 | | exact H3].
    eapply step_settles; eassumption.
Qed.

Lemma trigger_enabled_once_after_settlement_witness :
  exists w,
    run ([Click Samples.accepting 1700000000000; CanMakePaymentResolved true]
         ++ ShowResolved Samples.receipt :: [CompleteResolved])
        (loaded Samples.shopPage) = Some w /\
    gpayButton_disabled (page w) = false /\ enables w = 1%nat.
Proof.
  destruct (run ([Click Samples.accepting 1700000000000;
                  CanMakePaymentResolved true]
                 ++ ShowResolved Samples.receipt :: [CompleteResolved])
              (loaded Samples.shopPage)) as [w|] eqn:Hrun;
    [|vm_compute in Hrun; discriminate Hrun].
  exists w. split; [reflexivity|].
  exact (trigger_enabled_once_after_settlement
           Samples.shopPage
           [Click Samples.accepting 1700000000000; CanMakePaymentResolved true]
           [CompleteResolved] (ShowResolved Samples.receipt) w eq_refl Hrun).
Defined.

(** ** Attempts that end before the sheet is shown *)

(** Nothing of an attempt is left to run once every promise it created has
    settled and its timer, if any, is not armed. *)
Lemma nothing_left_to_run (w : World) :
  clicked (attempt w) = true ->
  canMakePaymentP (attempt w) <> Pending ->
  (forall delay, paymentTimeout (attempt w) <> Armed delay) ->
  showP (attempt w) <> Pending ->
  abortP (attempt w) <> Pending ->
  completeP (attempt w) <> Pending ->
  forall e, step e w = None.
Proof.
  destruct w as [pg [c cm t sp ab co] tr]; simpl.
  intros -> Hcm Ht Hsp Hab Hco e.
  destruct e; unfold step; simpl; try reflexivity.
  - destruct cm; congruence.
  - destruct cm; congruence.
  - destruct t; try reflexivity. now destruct (Ht delay).
  - destruct sp; congruence.
  - destruct sp; congruence.
  - destruct ab; congruence.
  - destruct ab; congruence.
  - destruct co; congruence.
  - destruct co; congruence.
Qed.

(** C7: when [new PaymentRequest(...)] throws, the click handler logs and
    shows "Payment Request Error: " followed by the exception's message
    (error) and returns: the button was not disabled and stays enabled, no
    probe, timer or presentation exists, and no callback of the attempt
    will ever run. *)
Theorem construction_failure_fails_fast
    (new_PaymentRequest : json -> json -> construction)
    (now : Z) (e : JsError) (p : Page) :
  gpayButton_disabled p = false ->
  new_PaymentRequest
    (supportedInstruments (generateTransactionReferenceID now)) orderDetails
  = Throws e ->
  exists w,
    step (Click (Some new_PaymentRequest) now) (loaded p) = Some w /\
    trace w =
      [Construct (supportedInstruments (generateTransactionReferenceID now))
                 orderDetails;
       ConsoleLog [VString ("Payment Request Error: " ++ message e)];
       ShowStatus ("Payment Request Error: " ++ message e) "error"] /\
    statusMessage_textContent (page w) = "Payment Request Error: " ++ message e /\
    statusMessage_className (page w) = "error" /\
    gpayButton_disabled (page w) = false /\
    canMakePaymentP (attempt w) = NotCreated /\
    paymentTimeout (attempt w) = NoTimer /\
    showP (attempt w) = NotCreated /\
    (forall e', step e' w = None).
Proof.
  intros Hp Hc. eexists. split.
  - unfold step; cbn [attempt page loaded clicked noAttempt orb]. rewrite Hp.
    reflexivity.
  - unfold onBuyClicked; cbv zeta. rewrite Hc.
    repeat split; exec; try reflexivity; try assumption.
    apply nothing_left_to_run; exec; try discriminate; reflexivity.
Qed.

Lemma construction_failure_fails_fast_witness :
  exists w,
    step (Click Samples.refusing 1700000000000) (loaded Samples.shopPage)
    = Some w /\
    statusMessage_textContent (page w)
    = "Payment Request Error: Invalid payment method" /\
    gpayButton_disabled (page w) = false /\
    (forall e', step e' w = None).
Proof.
  destruct (construction_failure_fails_fast
              (fun _ _ => Throws {| name := "TypeError";
                                    message := "Invalid payment method" |})
              1700000000000
              {| name := "TypeError"; message := "Invalid payment method" |}
              Samples.shopPage eq_refl eq_refl)
    as (w & Hstep & _ & Htext & _ & Hbutton & _ & _ & _ & Hend).
  exists w. repeat split; assumption.
Defined.

(** C6: when the probe resolves false nothing happens: page and trace are
    as the click left them (no status written, no timer, no presentation),
    the button is disabled, and no callback of the attempt will ever run, so
    it stays disabled. *)
Theorem ineligible_attempt_ends_silently
    (p : Page) (es : list event) (w w' : World) :
  run es (loaded p) = Some w ->
  step (CanMakePaymentResolved false) w = Some w' ->
  page w' = page w /\ trace w' = trace w /\
  gpayButton_disabled (page w') = true /\
  paymentTimeout (attempt w') = NoTimer /\
  showP (attempt w') = NotCreated /\
  (forall e, step e w' = None).
Proof.
  intros Hrun H. apply Inv_reachable in Hrun as [Hs Hb _].
  destruct w as [pg a tr]; simpl in *.
  unfold step in H; simpl in H.
  inversion Hs; subst a; simpl in *; try discriminate H.
  injection H as <-. specialize (Hb eq_refl).
  repeat split; exec; try reflexivity; try assumption.
  apply nothing_left_to_run; exec; try discriminate; reflexivity.
Qed.

Lemma ineligible_attempt_ends_silently_witness :
  exists w w',
    run [Click Samples.accepting 1700000000000] (loaded Samples.shopPage)
    = Some w /\
    step (CanMakePaymentResolved false) w = Some w' /\
    statusMessage_textContent (page w') = "Checking payment availability..." /\
    gpayButton_disabled (page w') = true /\
    (forall e, step e w' = None).
Proof.
  destruct (run [Click Samples.accepting 1700000000000]
              (loaded Samples.shopPage)) as [w|] eqn:Hrun;
    [|vm_compute in Hrun; discriminate Hrun].
  destruct (step (CanMakePaymentResolved false) w) as [w'|] eqn:Hstep;
    [|vm_compute in Hrun; injection Hrun as <-;
      vm_compute in Hstep; discriminate Hstep].
  exists w, w'.
  destruct (ineligible_attempt_ends_silently _ _ _ _ Hrun Hstep)
    as (Hpage & _ & Hbutton & _ & _ & Hend).
  repeat split; try assumption.
  rewrite Hpage. vm_compute in Hrun. injection Hrun as <-. reflexivity.
Defined.

(** ** The race between the timer and the presentation *)

Section Race.

Lemma step_trace_grows (e : event) (w w' : World) :
  step e w = Some w' -> exists fx, trace w' = (trace w ++ fx)%list.
Proof.
  intros H. destruct e; unfold step in H; next_world H; branches; exec;
    first [ eexists; reflexivity
          | exists []; rewrite app_nil_r; reflexivity ].
Qed.

Lemma run_trace_grows (es : list event) (w w' : World) :
  run es w = Some w' -> exists fx, trace w' = (trace w ++ fx)%list.
Proof.
  revert w; induction es as [|e es IH]; intros w H; simpl in H.
  - injection H as <-. exists []. now rewrite app_nil_r.
  - destruct (step e w) as [w1|] eqn:E; [|discriminate H].
    apply step_trace_grows in E as [fx1 E1]. apply IH in H as [fx2 E2].
    exists (fx1 ++ fx2)%list. now rewrite E2, E1, app_assoc.
Qed.

(** While the timer has not fired no abort exists, so a callback that runs
    and is not the timer's is not on the timer's side. *)
Lemma before_timer_fires (e : event) (w w' : World) :
  Inv w ->
  paymentTimeout (attempt w) <> Fired ->
  isTimerFired e = false ->
  step e w = Some w' ->
  timerSide e = false /\ paymentTimeout (attempt w') <> Fired.
Proof.
  intros [Hs _ _] Ht He H. destruct w as [pg a tr]; simpl in *.
  inversion Hs; subst a; simpl in *; try congruence;
    destruct e; try discriminate He; unfold step in H; simpl in H;
    try discriminate H; next_world H; branches; exec;
    (split; [reflexivity | discriminate]).
Qed.

Lemma run_before_timer_fires (es : list event) (w w' : World) :
  Inv w ->
  paymentTimeout (attempt w) <> Fired ->
  existsb isTimerFired es = false ->
  run es w = Some w' ->
  (forall e, In e es -> timerSide e = false) /\
  paymentTimeout (attempt w') <> Fired.
Proof.
  revert w; induction es as [|e es IH]; intros w HI Ht He H; simpl in *.
  - injection H as <-. split; [intros _ []| exact Ht].
  - apply orb_false_iff in He as [He1 He2].
    destruct (step e w) as [w1|] eqn:E; [|discriminate H].
    destruct (before_timer_fires _ _ _ HI Ht He1 E) as [Hside Ht1].
    destruct (IH w1 (step_preserves_Inv _ _ _ HI E) Ht1 He2 H) as [Hall Ht'].
    split; [|exact Ht']. intros e' [<-|Hin]; auto.
Qed.

(** A presentation that settles while the timer has not fired clears it. *)
Lemma settling_clears_timer (e : event) (w w' : World) :
  Inv w ->
  paymentTimeout (attempt w) <> Fired ->
  showSettles e = true ->
  step e w = Some w' ->
  paymentTimeout (attempt w') = Cleared.
Proof.
  intros [Hs _ _] Ht He H. destruct w as [pg a tr]; simpl in *.
  inversion Hs; subst a; simpl in *; try congruence;
    destruct e; try discriminate He; unfold step in H; simpl in H;
    try discriminate H; next_world H; branches; exec; reflexivity.
Qed.

(** A cleared timer stays cleared, and nothing of the timer's side runs. *)
Lemma after_timer_cleared (e : event) (w w' : World) :
  Inv w ->
  paymentTimeout (attempt w) = Cleared ->
  step e w = Some w' ->
  timerSide e = false /\ paymentTimeout (attempt w') = Cleared.
Proof.
  intros [Hs _ _] Ht H. destruct w as [pg a tr]; simpl in *.
  inversion Hs; subst a; simpl in *; try discriminate Ht;
    destruct e; unfold step in H; simpl in H;
    try discriminate H; next_world H; branches; exec;
    (split; reflexivity).
Qed.

Lemma run_after_timer_cleared (es : list event) (w w' : World) :
  Inv w ->
  paymentTimeout (attempt w) = Cleared ->
  run es w = Some w' ->
  (forall e, In e es -> timerSide e = false) /\
  paymentTimeout (attempt w') = Cleared.
Proof.
  revert w; induction es as [|e es IH]; intros w HI Ht H; simpl in *.
  - injection H as <-. split; [intros _ []| exact Ht].
  - destruct (step e w) as [w1|] eqn:E; [|discriminate H].
    destruct (after_timer_cleared _ _ _ HI Ht E) as [Hside Ht1].
    destruct (IH w1 (step_preserves_Inv _ _ _ HI E) Ht1 H) as [Hall Ht'].
    split; [|exact Ht']. intros e' [<-|Hin]; auto.
Qed.

Lemma sideWrote_none (side : event -> bool) (es : list event) (w : World) :
  (forall e, In e es -> side e = false) -> sideWrote side es w = false.
Proof.
  revert w; induction es as [|e es IH]; intros w Hall; simpl; [reflexivity|].
  destruct (step e w); [|reflexivity].
  rewrite (Hall e (or_introl eq_refl)); simpl.
  apply IH. intros e' Hin; apply Hall; now right.
Qed.

End Race.

(** C2: the script breaks the rule that only one side of the race writes
    the status.  In the timed-out attempt the callback of the successful
    abort (timer side, line 78) writes "Payment timed out." and the
    rejection callback of the presentation (lines 95-96), which nothing has
    silenced, then writes "Payment was cancelled.": both sides write the
    status of one attempt. *)
Lemma both_sides_write_status :
  sideWrote timerSide Samples.timedOut (loaded Samples.shopPage) = true /\
  sideWrote presentationSide Samples.timedOut (loaded Samples.shopPage) = true /\
  exists w,
    run Samples.timedOut (loaded Samples.shopPage) = Some w /\
    filter isShowStatus (trace w) =
      [ShowStatus "Checking payment availability..." "info";
       ShowStatus "Payment timed out." "error";
       ShowStatus "Payment was cancelled." "info"].
Proof.
  split; [vm_compute; reflexivity|].
  split; [vm_compute; reflexivity|].
  eexists; split; vm_compute; reflexivity.
Qed.

(** X11: when the presentation settles before the timer has fired, the
    timer is cleared and stays cleared, and no callback of the timer's side
    runs in the whole attempt, so the timer side never writes the status
    and the presentation alone drives it. *)
Theorem presentation_first_cancels_timer
    (p : Page) (es1 es2 : list event) (e : event) (w : World) :
  showSettles e = true ->
  existsb isTimerFired es1 = false ->
  run (es1 ++ e :: es2) (loaded p) = Some w ->
  (forall e', In e' (es1 ++ e :: es2) -> timerSide e' = false) /\
  sideWrote timerSide (es1 ++ e :: es2) (loaded p) = false /\
  paymentTimeout (attempt w) = Cleared.
Proof.
  intros He Hes1 H. apply run_through in H as (w1 & w2 & H1 & H2 & H3).
  assert (I0 : Inv (loaded p)) by apply Inv_loaded.
  assert (T0 : paymentTimeout (attempt (loaded p)) <> Fired) by discriminate.
  destruct (run_before_timer_fires _ _ _ I0 T0 Hes1 H1) as [Hb1 T1].
  pose proof (run_preserves_Inv _ _ _ I0 H1) as I1.
  pose proof (settling_clears_timer _ _ _ I1 T1 He H2) as T2.
  pose proof (step_preserves_Inv _ _ _ I1 H2) as I2.
  destruct (run_after_timer_cleared _ _ _ I2 T2 H3) as [Hb2 T3].
  assert (Hall : forall e', In e' (es1 ++ e :: es2) -> timerSide e' = false).
  { intros e' Hin. apply in_app_or in Hin as [Hin|[E|Hin]]; auto.
    subst e'. destruct e; try discriminate He; reflexivity. }
  split; [exact Hall|]. split; [|exact T3].
  apply sideWrote_none, Hall.
Qed.

Lemma presentation_first_cancels_timer_witness :
  sideWrote timerSide
    ([Click Samples.accepting 1700000000000; CanMakePaymentResolved true]
     ++ ShowResolved Samples.receipt :: [CompleteResolved])
    (loaded Samples.shopPage) = false.
Proof.
  destruct (run ([Click Samples.accepting 1700000000000;
                  CanMakePaymentResolved true]
                 ++ ShowResolved Samples.receipt :: [CompleteResolved])
              (loaded Samples.shopPage)) as [w|] eqn:Hrun;
    [|vm_compute in Hrun; discriminate Hrun].
  exact (proj1 (proj2 (presentation_first_cancels_timer
                         Samples.shopPage
                         [Click Samples.accepting 1700000000000;
                          CanMakePaymentResolved true]
                         [CompleteResolved]
                         (ShowResolved Samples.receipt)
                         w eq_refl eq_refl Hrun))).
Defined.

(** ** The timeout *)

Section Timeout.

Lemma step_AbortResolved_inv (w w' : World) :
  step AbortResolved w = Some w' ->
  abortP (attempt w) = Pending /\
  w' = onAbortFulfilled (onAttempt (set_abortP Fulfilled) w).
Proof.
  unfold step. destruct (abortP (attempt w)); intros H; inversion H; auto.
Qed.

Lemma step_AbortRejected_inv (w w' : World) :
  step AbortRejected w = Some w' ->
  abortP (attempt w) = Pending /\
  w' = onAbortRejected (onAttempt (set_abortP Rejected) w).
Proof.
  unfold step. destruct (abortP (attempt w)); intros H; inversion H; auto.
Qed.

Lemma step_TimerFired_inv (elapsed : Z) (w w' : World) :
  step (TimerFired elapsed) w = Some w' ->
  exists delay,
    paymentTimeout (attempt w) = Armed delay /\ delay <= elapsed /\
    w' = onPaymentTimeout (onAttempt (set_paymentTimeout Fired) w).
Proof.
  unfold step. destruct (paymentTimeout (attempt w)) as [|d| |];
    try discriminate.
  destruct (Z.leb_spec d elapsed) as [Hle|Hlt]; intros E; inversion E.
  exists d; auto.
Qed.

(** An armed timer is the twenty minute timer of a pending presentation. *)
Lemma Inv_armed (w : World) (delay : Z) :
  Inv w -> paymentTimeout (attempt w) = Armed delay ->
  delay = 1200000 /\ showP (attempt w) = Pending /\
  abortP (attempt w) = NotCreated.
Proof.
  intros [Hs _ _] H. destruct w as [pg a tr]; simpl in *.
  inversion Hs; subst a; simpl in *; try discriminate H.
  injection H as <-. auto.
Qed.

Lemma run_keeps_trace (es : list event) (w w' : World) (x : effect) :
  run es w = Some w' -> In x (trace w) -> In x (trace w').
Proof.
  intros H Hin. apply run_trace_grows in H as [fx ->].
  apply in_or_app; now left.
Qed.

End Timeout.

(** C3: the script does not end a timed-out attempt with the status it
    sets for it.  The abort succeeds and its callback (line 78) shows
    "Payment timed out."; the rejection callback of the presentation (lines
    95-96) then replaces it by "Payment was cancelled." (info) before the
    button is enabled, and that is how the attempt ends: no callback is left
    to run. *)
Lemma timed_out_attempt_ends_cancelled :
  exists w1 w2,
    run [Click Samples.accepting 1700000000000; CanMakePaymentResolved true;
         TimerFired 1200000; AbortResolved] (loaded Samples.shopPage)
    = Some w1 /\
    statusMessage_textContent (page w1) = "Payment timed out." /\
    gpayButton_disabled (page w1) = true /\
    step (ShowRejected Samples.abortError 1700001200000) w1 = Some w2 /\
    gpayButton_disabled (page w2) = false /\
    statusMessage_textContent (page w2) = "Payment was cancelled." /\
    statusMessage_className (page w2) = "info" /\
    (forall e, step e w2 = None).
Proof.
  do 2 eexists. split; [vm_compute; reflexivity|].
  split; [reflexivity|]. split; [reflexivity|].
  split; [vm_compute; reflexivity|].
  repeat split.
  apply nothing_left_to_run; simpl; try discriminate; reflexivity.
Qed.

(** X12: the timer's callback runs only when 1,200,000 ms have elapsed
    and the presentation has not settled, and can run from then on; it
    calls request.abort() and writes nothing.  The callback of a successful
    abort sets the status to "Payment timed out." (error) and leaves the
    button as it is; the callback of a failed abort only logs; the button is
    enabled by the callback through which the promise of show() settles. *)
Theorem timeout_aborts_presentation (p : Page) (es : list event) (w : World) :
  run es (loaded p) = Some w ->
  (forall elapsed w',
     step (TimerFired elapsed) w = Some w' ->
     1200000 <= elapsed /\ showP (attempt w) = Pending /\
     trace w' = (trace w ++ [CallClearTimeout; CallAbort])%list /\
     page w' = page w /\
     abortP (attempt w') = Pending /\ showP (attempt w') = Pending) /\
  (forall elapsed delay,
     paymentTimeout (attempt w) = Armed delay -> 1200000 <= elapsed ->
     step (TimerFired elapsed) w <> None) /\
  (forall w',
     step AbortResolved w = Some w' ->
     trace w' =
       (trace w ++ [ConsoleLog [VString "Payment timed out after 20 minutes."];
                    ShowStatus "Payment timed out." "error"])%list /\
     statusMessage_textContent (page w') = "Payment timed out." /\
     statusMessage_className (page w') = "error" /\
     gpayButton_disabled (page w') = gpayButton_disabled (page w)) /\
  (forall w',
     step AbortRejected w = Some w' ->
     trace w' =
       (trace w ++
        [ConsoleLog
           [VString "Unable to abort, user is in the process of paying."]])%list /\
     page w' = page w) /\
  (forall e w',
     showSettles e = true -> step e w = Some w' ->
     gpayButton_disabled (page w') = false).
Proof.
  intros Hrun. apply Inv_reachable in Hrun as HI.
  split; [|split; [|split; [|split]]].
  - intros elapsed w' H.
    apply step_TimerFired_inv in H as (delay & Ht & Hle & ->).
    destruct (Inv_armed _ _ HI Ht) as (-> & Hshow & _).
    repeat split; exec; try assumption; try reflexivity.
  - intros elapsed delay Ht Hle.
    destruct (Inv_armed _ _ HI Ht) as (-> & _ & _).
    unfold step. rewrite Ht.
    destruct (Z.leb_spec 1200000 elapsed); [discriminate | lia].
  - intros w' H. apply step_AbortResolved_inv in H as [_ ->].
    repeat split; exec; reflexivity.
  - intros w' H. apply step_AbortRejected_inv in H as [_ ->].
    repeat split; exec; reflexivity.
  - intros e w' He H.
    destruct e; try discriminate He; unfold step in H; next_world H;
      branches; exec; reflexivity.
Qed.

Lemma timeout_aborts_presentation_witness :
  exists w w',
    run [Click Samples.accepting 1700000000000; CanMakePaymentResolved true]
        (loaded Samples.shopPage) = Some w /\
    step (TimerFired 1200000) w = Some w' /\
    abortP (attempt w') = Pending /\ showP (attempt w') = Pending /\
    page w' = page w.
Proof.
  destruct (run [Click Samples.accepting 1700000000000;
                 CanMakePaymentResolved true] (loaded Samples.shopPage))
    as [w|] eqn:Hrun; [|vm_compute in Hrun; discriminate Hrun].
  destruct (step (TimerFired 1200000) w) as [w'|] eqn:Hstep;
    [|vm_compute in Hrun; injection Hrun as <-;
      vm_compute in Hstep; discriminate Hstep].
  exists w, w'.
  destruct (timeout_aborts_presentation _ _ _ Hrun) as (Htimer & _).
  destruct (Htimer _ _ Hstep) as (_ & _ & _ & Hpage & Habort & Hshow).
  repeat split; assumption.
Defined.

(** ** A timed-out attempt looks like a cancelled one *)

Section Indistinguishable.

Lemma step_AbortResolved_status (w w' : World) :
  step AbortResolved w = Some w' ->
  In (ShowStatus "Payment timed out." "error") (trace w').
Proof.
  intros H. apply step_AbortResolved_inv in H as [_ ->]. exec.
  apply in_or_app; right; simpl; auto.
Qed.

Lemma step_ShowRejected_abort_status (m : string) (now : Z) (w w' : World) :
  step (ShowRejected {| name := "AbortError"; message := m |} now) w = Some w' ->
  In (ShowStatus "Payment was cancelled." "info") (trace w').
Proof.
  intros H. apply step_ShowRejected_inv in H as [_ ->].
  unfold onShowRejected; cbn [name].
  change (String.eqb "AbortError" "NotSupportedError") with false.
  change (String.eqb "AbortError" "AbortError") with true. exec.
  apply in_or_app; right; simpl; auto.
Qed.

(** What the rejection callback does to the page depends on the error and
    the page only, not on the timer or on any promise. *)
Lemma onShowRejected_reads_error_only (err : JsError) (now : Z) (wa wb : World) :
  page wa = page wb ->
  page (onShowFinally (onShowRejected err now wa)) =
  page (onShowFinally (onShowRejected err now wb)).
Proof.
  intros E. unfold onShowRejected; branches; exec; rewrite E; reflexivity.
Qed.

Lemma run_delivered (e : event) (es : list event) (w0 w : World) :
  run es w0 = Some w -> In e es ->
  exists w1 w2 es2, step e w1 = Some w2 /\ run es2 w2 = Some w.
Proof.
  intros H Hin. apply in_split in Hin as (es1 & es2 & ->).
  apply run_through in H as (w1 & w2 & _ & H2 & H3).
  exists w1, w2, es2; auto.
Qed.

End Indistinguishable.

(** C4: in an attempt where the abort after the timeout succeeded and the
    presentation rejected with AbortError, the status was written both with
    "Payment timed out." (error) and with "Payment was cancelled." (info).
    The rejection callback cannot tell the two kinds of abort apart: what it
    does to the page is the same in a world where the timer has fired and the
    abort succeeded as in one where the user dismissed the sheet. *)
Theorem timer_abort_reported_as_cancellation
    (p : Page) (es : list event) (w : World) (m : string) (now : Z) :
  run es (loaded p) = Some w ->
  In AbortResolved es ->
  In (ShowRejected {| name := "AbortError"; message := m |} now) es ->
  In (ShowStatus "Payment timed out." "error") (trace w) /\
  In (ShowStatus "Payment was cancelled." "info") (trace w) /\
  (forall timerAbort userAbort wt wu,
     showP (attempt timerAbort) = Pending ->
     paymentTimeout (attempt timerAbort) = Fired ->
     abortP (attempt timerAbort) = Fulfilled ->
     showP (attempt userAbort) = Pending ->
     paymentTimeout (attempt userAbort) = Armed 1200000 ->
     abortP (attempt userAbort) = NotCreated ->
     page timerAbort = page userAbort ->
     step (ShowRejected {| name := "AbortError"; message := m |} now) timerAbort
       = Some wt ->
     step (ShowRejected {| name := "AbortError"; message := m |} now) userAbort
       = Some wu ->
     page wt = page wu /\
     statusMessage_textContent (page wt) = "Payment was cancelled." /\
     statusMessage_className (page wt) = "info").
Proof.
  intros Hrun Habort Hreject. split; [|split].
  - destruct (run_delivered _ _ _ _ Hrun Habort) as (w1 & w2 & es2 & H2 & H3).
    eapply run_keeps_trace; [exact H3|].
    eapply step_AbortResolved_status; exact H2.
  - destruct (run_delivered _ _ _ _ Hrun Hreject) as (w1 & w2 & es2 & H2 & H3).
    eapply run_keeps_trace; [exact H3|].
    eapply step_ShowRejected_abort_status; exact H2.
  - intros timerAbort userAbort wt wu _ _ _ _ _ _ Hpage Ht Hu.
    apply step_ShowRejected_inv in Ht as [_ ->].
    apply step_ShowRejected_inv in Hu as [_ ->].
    split.
    + apply onShowRejected_reads_error_only. exec. exact Hpage.
    + unfold onShowRejected; cbn [name].
      change (String.eqb "AbortError" "NotSupportedError") with false.
      change (String.eqb "AbortError" "AbortError") with true.
      split; exec; reflexivity.
Qed.

Lemma timer_abort_reported_as_cancellation_witness :
  exists w,
    run Samples.timedOut (loaded Samples.shopPage) = Some w /\
    In (ShowStatus "Payment timed out." "error") (trace w) /\
    In (ShowStatus "Payment was cancelled." "info") (trace w).
Proof.
  destruct (run Samples.timedOut (loaded Samples.shopPage)) as [w|] eqn:Hrun;
    [|vm_compute in Hrun; discriminate Hrun].
  exists w.
  destruct (timer_abort_reported_as_cancellation
              Samples.shopPage Samples.timedOut w
              "The website has aborted the payment" 1700001200000 Hrun)
    as (H1 & H2 & _).
  - simpl; auto.
  - simpl. do 4 right. left. reflexivity.
  - repeat split; assumption.
Defined.

(** * Further properties *)

(** ** The eligibility hint *)

Section Eligibility.

Lemma append_cons (c : ascii) (a b : string) :
  String c a ++ b = String c (a ++ b).
Proof. reflexivity. Qed.

Lemma append_empty (b : string) : EmptyString ++ b = b.
Proof. reflexivity. Qed.

Lemma matchesAt_spec (pattern input : string) :
  matchesAt pattern input = true <->
  exists found after,
    input = found ++ after /\ canonical found = canonical pattern.
Proof.
  revert input; induction pattern as [|p ps IH]; intros input; simpl.
  - split; [intros _; exists EmptyString, input; auto | reflexivity].
  - destruct input as [|c cs].
    + split; [discriminate|].
      intros (found & after & E & Hc). destruct found; discriminate.
    + rewrite andb_true_iff, Ascii.eqb_eq, IH. split.
      * intros (Ec & found & after & -> & Hf).
        exists (String c found), after. rewrite append_cons; simpl.
        split; [reflexivity | congruence].
      * intros (found & after & E & Hc).
        destruct found as [|f fs]; [discriminate|].
        rewrite append_cons in E. simpl in Hc.
        injection E as -> ->. injection Hc as Hc1 Hc2.
        split; [congruence | exists fs, after; auto].
Qed.

Lemma RegExp_test_i_spec (pattern input : string) :
  RegExp_test_i pattern input = true <-> containsIgnoringCase pattern input.
Proof.
  unfold containsIgnoringCase.
  induction input as [|c cs IH]; simpl; rewrite orb_true_iff, matchesAt_spec.
  - split.
    + intros [(found & after & E & Hc)|H]; [|discriminate].
      exists EmptyString, found, after; auto.
    + intros (before & found & after & E & Hc). left.
      destruct before; [|discriminate]. exists found, after; auto.
  - rewrite IH. split.
    + intros [(found & after & E & Hc)|(before & found & after & E & Hc)].
      * exists EmptyString, found, after; auto.
      * exists (String c before), found, after.
        rewrite append_cons. split; congruence.
    + intros (before & found & after & E & Hc).
      destruct before as [|b bs].
      * left. exists found, after; auto.
      * right. rewrite append_cons in E. injection E as -> ->.
        exists bs, found, after; auto.
Qed.

Lemma canonicalize_idempotent (c : ascii) :
  canonicalize (canonicalize c) = canonicalize c.
Proof. destruct c as [[] [] [] [] [] [] [] []]; reflexivity. Qed.

Lemma canonical_idempotent (s : string) : canonical (canonical s) = canonical s.
Proof.
  induction s as [|c s IH]; simpl; [reflexivity|].
  now rewrite canonicalize_idempotent, IH.
Qed.

Lemma matchesAt_canonical (pattern input : string) :
  matchesAt pattern (canonical input) = matchesAt pattern input.
Proof.
  revert input; induction pattern as [|p ps IH]; intros [|c cs]; simpl;
    try reflexivity.
  now rewrite canonicalize_idempotent, IH.
Qed.

Lemma RegExp_test_i_canonical (pattern input : string) :
  RegExp_test_i pattern (canonical input) = RegExp_test_i pattern input.
Proof.
  induction input as [|c cs IH]; [reflexivity|].
  change (canonical (String c cs)) with (String (canonicalize c) (canonical cs)).
  cbn [RegExp_test_i]. rewrite IH. f_equal.
  apply (matchesAt_canonical pattern (String c cs)).
Qed.

Lemma isGPaySupported_supported
    (PaymentRequest : option (json -> json -> construction))
    (userAgent : string) :
  isGPaySupported PaymentRequest userAgent = true <->
  PaymentRequest <> None /\
  containsIgnoringCase "Android" userAgent /\
  containsIgnoringCase "Chrome" userAgent.
Proof.
  unfold isGPaySupported. destruct PaymentRequest as [ctor|].
  - cbv zeta. rewrite andb_true_iff, !RegExp_test_i_spec.
    split; [intros [Ha Hc]; repeat split; auto; discriminate | tauto].
  - split; [discriminate | intros [H _]; now destruct H].
Qed.

End Eligibility.

(** X1: isGPaySupported answers true exactly when the PaymentRequest
    global exists and the user agent contains both "android" and "chrome",
    in any letter case and at any position. *)
Theorem isGPaySupported_iff
    (PaymentRequest : option (json -> json -> construction))
    (userAgent : string) :
  isGPaySupported PaymentRequest userAgent = true <->
  PaymentRequest <> None /\
  containsIgnoringCase "Android" userAgent /\
  containsIgnoringCase "Chrome" userAgent.
Proof. apply isGPaySupported_supported. Qed.

(** X2: the answer of isGPaySupported does not depend on the letter case of
    the user agent. *)
Theorem isGPaySupported_ignores_case
    (PaymentRequest : option (json -> json -> construction))
    (userAgent : string) :
  isGPaySupported PaymentRequest (canonical userAgent)
  = isGPaySupported PaymentRequest userAgent.
Proof.
  unfold isGPaySupported. destruct PaymentRequest; [|reflexivity].
  cbv zeta. now rewrite !RegExp_test_i_canonical.
Qed.

Example chrome_android_is_supported :
  isGPaySupported Samples.accepting
    "Mozilla/5.0 (Linux; Android 14; Pixel 8) AppleWebKit/537.36 (KHTML, like Gecko) Chrome/126.0.0.0 Mobile Safari/537.36"
  = true.
Proof. vm_compute. reflexivity. Qed.

Example desktop_chrome_is_not_supported :
  isGPaySupported Samples.accepting
    "Mozilla/5.0 (X11; Linux x86_64) AppleWebKit/537.36 (KHTML, like Gecko) Chrome/126.0.0.0 Safari/537.36"
  = false.
Proof. vm_compute. reflexivity. Qed.

Example android_without_api_is_not_supported :
  isGPaySupported None "Mozilla/5.0 (Linux; Android 14) Chrome/126.0.0.0" = false.
Proof. reflexivity. Qed.

(** X3: on page load the note about Chrome for Android is shown exactly
    when isGPaySupported answers false, that is when PaymentRequest is
    missing or the user agent lacks "android" or "chrome"; otherwise the
    status is left alone.  In both cases the button, the location and the
    attempt are untouched: loading starts nothing. *)
Theorem load_shows_hint_iff_unsupported
    (PaymentRequest : option (json -> json -> construction))
    (userAgent : string) (w : World) :
  let w' := onDOMContentLoaded PaymentRequest userAgent w in
  let supported :=
    PaymentRequest <> None /\
    containsIgnoringCase "Android" userAgent /\
    containsIgnoringCase "Chrome" userAgent in
  attempt w' = attempt w /\
  gpayButton_disabled (page w') = gpayButton_disabled (page w) /\
  location_href (page w') = location_href (page w) /\
  (supported -> page w' = page w /\ trace w' = trace w) /\
  (~ supported ->
   trace w' =
     (trace w ++
      [ShowStatus
         "Note: Google Pay UPI Intent is only supported on Chrome for Android."
         "info"])%list /\
   statusMessage_textContent (page w') =
     "Note: Google Pay UPI Intent is only supported on Chrome for Android." /\
   statusMessage_className (page w') = "info").
Proof.
  cbv zeta. unfold onDOMContentLoaded.
  destruct (isGPaySupported PaymentRequest userAgent) eqn:E; cbn [negb].
  - apply isGPaySupported_supported in E.
    split; [|split; [|split; [|split]]]; exec; try reflexivity.
    + intros _; split; reflexivity.
    + intros Hn; now destruct (Hn E).
  - assert (Hn : ~ (PaymentRequest <> None /\
                    containsIgnoringCase "Android" userAgent /\
                    containsIgnoringCase "Chrome" userAgent)).
    { intros H. apply isGPaySupported_supported in H. congruence. }
    split; [|split; [|split; [|split]]]; exec; try reflexivity.
    + intros H; now destruct (Hn H).
    + intros _; repeat split; reflexivity.
Qed.

(** ** The calls an attempt makes *)

Ltac count_calls :=
  cbn [created] in *; rewrite ?filter_app, ?List.length_app; simpl; lia.

Ltac check_calls :=
  first [ assumption
        | apply Forall_app; split;
          [ assumption
          | repeat (apply Forall_cons; [simpl; auto |]); apply Forall_nil ] ].

Section Calls.

Lemma CallInv_loaded (p : Page) : CallInv (loaded p).
Proof.
  unfold CallInv, calls; simpl. repeat split; try lia. constructor.
Qed.

Lemma step_preserves_CallInv (e : event) (w w' : World) :
  Inv w -> CallInv w -> step e w = Some w' -> CallInv w'.
Proof.
  intros [Hs _ _] HC H. destruct w as [pg a tr].
  unfold CallInv, calls in *. cbn [attempt trace] in *.
  destruct HC as (C1 & C2 & C3 & C4 & C5 & C6 & C7 & C8).
  inversion Hs; subst a; cbn [clicked canMakePaymentP showP abortP completeP
                              noAttempt created Nat.b2n] in *;
    destruct e; unfold step in H; simpl in H; try discriminate H;
    next_world H; branches; exec;
    (split; [|split; [|split; [|split; [|split; [|split; [|split]]]]]]);
    cbn [created Nat.b2n]; first [ count_calls | check_calls ].
Qed.

Lemma run_preserves_CallInv (es : list event) (w w' : World) :
  Inv w -> CallInv w -> run es w = Some w' -> CallInv w'.
Proof.
  revert w; induction es as [|e es IH]; intros w HI HC H; simpl in H.
  - now injection H as <-.
  - destruct (step e w) as [w1|] eqn:E; [|discriminate H].
    eapply IH; [eapply step_preserves_Inv; eassumption
               | eapply step_preserves_CallInv; eassumption | exact H].
Qed.

(** An abort exists exactly when the timer has fired; a completion exists
    exactly when the presentation was fulfilled. *)
Lemma shape_abort_complete (a : Attempt) :
  reachableShape a ->
  created (abortP a) = (match paymentTimeout a with Fired => 1 | _ => 0 end)%nat /\
  created (completeP a) = (match showP a with Fulfilled => 1 | _ => 0 end)%nat /\
  (created (showP a) <= created (canMakePaymentP a))%nat /\
  (showP a <> NotCreated -> canMakePaymentP a = Fulfilled).
Proof.
  intros Hs; inversion Hs; simpl; repeat split; try lia; try reflexivity;
    try congruence;
    repeat match goal with
           | x : promise |- _ => destruct x; try congruence
           end; simpl; lia.
Qed.

End Calls.

(** X4: in one attempt the script constructs at most one request, probes
    it at most once, presents it at most once and only after probing, arms
    the timer exactly when it presents, asks for an abort at most once and
    exactly when the timer has fired, and acknowledges at most once and
    exactly when the presentation was fulfilled.  Every status it shows has
    class success, error or info, every timer is set to 1,200,000 ms and
    every acknowledgment carries "success". *)
Theorem call_discipline (p : Page) (es : list event) (w : World) :
  run es (loaded p) = Some w ->
  (calls isConstruct w <= 1)%nat /\
  (calls isCallCanMakePayment w <= calls isConstruct w)%nat /\
  (calls isCallShow w <= calls isCallCanMakePayment w)%nat /\
  calls isCallSetTimeout w = calls isCallShow w /\
  calls isCallAbort w =
    (match paymentTimeout (attempt w) with Fired => 1 | _ => 0 end)%nat /\
  (calls isCallAbort w <= calls isCallShow w)%nat /\
  calls isCallComplete w =
    (match showP (attempt w) with Fulfilled => 1 | _ => 0 end)%nat /\
  Forall wellFormedCall (trace w).
Proof.
  intros Hrun.
  pose proof (Inv_reachable _ _ _ Hrun) as HI.
  pose proof (run_preserves_CallInv _ _ _ (Inv_loaded p) (CallInv_loaded p) Hrun)
    as (C1 & C2 & C3 & C4 & C5 & C6 & C7 & C8).
  destruct HI as [Hs _ _].
  destruct (shape_abort_complete _ Hs) as (S1 & S2 & S3 & S4).
  assert (S5 : (created (abortP (attempt w)) <= created (showP (attempt w)))%nat).
  { inversion Hs; simpl; try lia;
      repeat match goal with
             | x : promise |- _ => destruct x
             end; simpl; lia. }
  assert (S6 : (Nat.b2n (clicked (attempt w)) <= 1)%nat)
    by (destruct (clicked (attempt w)); simpl; lia).
  split; [lia|]. split; [lia|]. split; [lia|]. split; [lia|].
  split; [lia|]. split; [lia|]. split; [lia | exact C8].
Qed.

Lemma call_discipline_witness :
  exists w,
    run Samples.timedOut (loaded Samples.shopPage) = Some w /\
    calls isCallShow w = 1%nat /\ calls isCallSetTimeout w = 1%nat /\
    calls isCallAbort w = 1%nat /\ calls isCallComplete w = 0%nat.
Proof.
  destruct (run Samples.timedOut (loaded Samples.shopPage)) as [w|] eqn:Hrun;
    [|vm_compute in Hrun; discriminate Hrun].
  exists w. split; [reflexivity|].
  destruct (call_discipline _ _ _ Hrun) as (_ & _ & _ & H4 & H5 & _ & H7 & _).
  vm_compute in Hrun. injection Hrun as <-.
  split; [reflexivity|]. split; [rewrite H4; reflexivity|].
  split; [exact H5 | exact H7].
Defined.

(** ** The probe is rejected *)

(** X6: when canMakePayment() rejects, the callback logs the error, shows
    "Error checking payment availability." (error) and enables the button,
    which was disabled; no timer or presentation exists and no callback of
    the attempt is left to run. *)
Theorem probe_rejection_ends_attempt
    (p : Page) (es : list event) (err : JsError) (w w' : World) :
  run es (loaded p) = Some w ->
  step (CanMakePaymentRejected err) w = Some w' ->
  trace w' =
    (trace w ++
     [ConsoleLog
        [VString ("Error calling canMakePayment: " ++ Error_toString err)];
      ShowStatus "Error checking payment availability." "error";
      SetDisabled false])%list /\
  statusMessage_textContent (page w') = "Error checking payment availability." /\
  statusMessage_className (page w') = "error" /\
  gpayButton_disabled (page w) = true /\
  gpayButton_disabled (page w') = false /\
  location_href (page w') = location_href (page w) /\
  paymentTimeout (attempt w') = NoTimer /\
  showP (attempt w') = NotCreated /\
  (forall e, step e w' = None).
Proof.
  intros Hrun H. apply Inv_reachable in Hrun as [Hs Hb _].
  destruct w as [pg a tr]; simpl in *.
  unfold step in H; simpl in H.
  inversion Hs; subst a; simpl in *; try discriminate H.
  injection H as <-. specialize (Hb eq_refl).
  repeat split; exec; try reflexivity; try assumption.
  apply nothing_left_to_run; exec; try discriminate; reflexivity.
Qed.

Lemma probe_rejection_ends_attempt_witness :
  exists w w',
    run [Click Samples.accepting 1700000000000] (loaded Samples.shopPage)
    = Some w /\
    step (CanMakePaymentRejected {| name := "SecurityError"; message := "blocked" |})
         w = Some w' /\
    gpayButton_disabled (page w') = false /\
    (forall e, step e w' = None).
Proof.
  destruct (run [Click Samples.accepting 1700000000000]
              (loaded Samples.shopPage)) as [w|] eqn:Hrun;
    [|vm_compute in Hrun; discriminate Hrun].
  destruct (step (CanMakePaymentRejected
                    {| name := "SecurityError"; message := "blocked" |}) w)
    as [w'|] eqn:Hstep;
    [|vm_compute in Hrun; injection Hrun as <-;
      vm_compute in Hstep; discriminate Hstep].
  exists w, w'.
  destruct (probe_rejection_ends_attempt _ _ _ _ _ Hrun Hstep)
    as (_ & _ & _ & _ & Hbutton & _ & _ & _ & Hend).
  repeat split; assumption.
Defined.

(** ** Navigation *)

Section Navigation.

Lemma step_navigation (e : event) (w w' : World) :
  Inv w -> step e w = Some w' ->
  (isUnsupportedRejection e = false /\
   location_href (page w') = location_href (page w) /\
   calls isNavigate w' = calls isNavigate w /\
   (showP (attempt w) = Rejected -> showP (attempt w') = Rejected)) \/
  (isUnsupportedRejection e = true /\
   (exists now, location_href (page w') = deepLink now) /\
   calls isNavigate w' = S (calls isNavigate w) /\
   showP (attempt w) = Pending /\ showP (attempt w') = Rejected).
Proof.
  intros [Hs _ _] H. destruct w as [pg a tr].
  unfold calls, isUnsupportedRejection. cbn [attempt page trace] in *.
  inversion Hs; subst a; cbn [showP noAttempt] in *;
    destruct e; unfold step in H; simpl in H; try discriminate H;
    next_world H; branches; exec;
    first [ left; split; [reflexivity|]; split; [reflexivity|];
            split; [count_calls | congruence]
          | right; split; [reflexivity|]; split; [eexists; reflexivity|];
            split; [count_calls | split; reflexivity] ].
Qed.

Lemma step_preserves_NavInv (href : string) (e : event) (w w' : World) :
  Inv w -> NavInv href w -> step e w = Some w' -> NavInv href w'.
Proof.
  intros HI HN H.
  destruct (step_navigation _ _ _ HI H)
    as [(_ & Eh & Ec & Es)|(_ & (now & Eh) & Ec & Ep & Er)];
    destruct HN as [(N0 & Hh)|(N1 & Hr & now' & Hh)].
  - left. split; congruence.
  - right. split; [congruence|]. split; [auto|]. exists now'. congruence.
  - right. split; [congruence|]. split; [exact Er|]. exists now. exact Eh.
  - congruence.
Qed.

Lemma run_preserves_NavInv (href : string) (es : list event) (w w' : World) :
  Inv w -> NavInv href w -> run es w = Some w' -> NavInv href w'.
Proof.
  revert w; induction es as [|e es IH]; intros w HI HN H; simpl in H.
  - now injection H as <-.
  - destruct (step e w) as [w1|] eqn:E; [|discriminate H].
    eapply IH; [eapply step_preserves_Inv; eassumption
               | eapply step_preserves_NavInv; eassumption | exact H].
Qed.

Lemma NavInv_loaded (p : Page) : NavInv (location_href p) (loaded p).
Proof. left. split; reflexivity. Qed.

Lemma existsb_snoc {A : Type} (f : A -> bool) (l : list A) (x : A) :
  existsb f (l ++ [x]) = existsb f l || f x.
Proof. rewrite existsb_app; simpl. now rewrite orb_false_r. Qed.

End Navigation.

(** X8: the script assigns location.href only in the rejection callback of
    the presentation, for an error named NotSupportedError.  So after any
    sequence of callbacks the page is still where it was loaded if no such
    rejection occurred, and otherwise it has navigated exactly once, to a
    deep link; in particular a probe that answers false never redirects. *)
Theorem navigation_only_by_fallback (p : Page) (es : list event) (w : World) :
  run es (loaded p) = Some w ->
  (existsb isUnsupportedRejection es = false /\
   calls isNavigate w = 0%nat /\
   location_href (page w) = location_href p) \/
  (existsb isUnsupportedRejection es = true /\
   calls isNavigate w = 1%nat /\
   exists now, location_href (page w) = deepLink now).
Proof.
  revert w. induction es as [|e es IH] using rev_ind; intros w H.
  - injection H as <-. left. repeat split.
  - rewrite run_app in H.
    destruct (run es (loaded p)) as [w1|] eqn:H1; [|discriminate H].
    simpl in H. destruct (step e w1) as [w2|] eqn:H2; [|discriminate H].
    injection H as <-.
    pose proof (Inv_reachable _ _ _ H1) as I1.
    pose proof (run_preserves_NavInv _ _ _ _ (Inv_loaded p) (NavInv_loaded p)
                  H1) as N1.
    rewrite existsb_snoc.
    destruct (step_navigation _ _ _ I1 H2)
      as [(Eu & Eh & Ec & _)|(Eu & (now & Eh) & Ec & Ep & _)]; rewrite Eu.
    + rewrite orb_false_r.
      destruct (IH w1 eq_refl) as [(E0 & C0 & L0)|(E1 & C1 & now & L1)].
      * left. repeat split; congruence.
      * right. split; [exact E1|]. split; [congruence|]. exists now. congruence.
    + rewrite orb_true_r. right. split; [reflexivity|].
      split; [|exists now; exact Eh].
      destruct N1 as [(N0 & _)|(_ & Hr & _)]; congruence.
Qed.

Lemma navigation_only_by_fallback_witness :
  exists w,
    run [Click Samples.accepting 1700000000000; CanMakePaymentResolved false]
        (loaded Samples.shopPage) = Some w /\
    location_href (page w) = "https://shop.example/".
Proof.
  destruct (run [Click Samples.accepting 1700000000000;
                 CanMakePaymentResolved false] (loaded Samples.shopPage))
    as [w|] eqn:Hrun; [|vm_compute in Hrun; discriminate Hrun].
  exists w. split; [reflexivity|].
  destruct (navigation_only_by_fallback _ _ _ Hrun)
    as [(_ & _ & L)|(E & _)]; [exact L | discriminate E].
Defined.

(** ** Several attempts on one page *)

Section Sessions.

(** What a callback of a started attempt does to the button. *)
Lemma callback_button (e : event) (pg : Page) (a : Attempt) (tr : list effect)
    (w' : World) :
  reachableShape a -> clicked a = true ->
  step e {| page := pg; attempt := a; trace := tr |} = Some w' ->
  reachableShape (attempt w') /\ clicked (attempt w') = true /\
  ((busy a = true /\ busy (attempt w') = true /\
    gpayButton_disabled (page w') = gpayButton_disabled pg) \/
   (busy a = true /\ busy (attempt w') = false /\
    gpayButton_disabled (page w') = false) \/
   (busy a = false /\ busy (attempt w') = false /\
    gpayButton_disabled (page w') = gpayButton_disabled pg)).
Proof.
  intros Hs Hc H. unfold busy.
  inversion Hs; subst a; cbn [clicked canMakePaymentP showP] in *;
    try discriminate Hc;
    destruct e; unfold step in H; simpl in H; try discriminate H;
    next_world H; branches; exec;
    (split; [solve [constructor; congruence]|]); (split; [reflexivity|]);
    first [ left; repeat split; reflexivity
          | right; left; repeat split; reflexivity
          | right; right; repeat split; reflexivity ].
Qed.

(** What a click that gets through does to the button. *)
Lemma start_button PaymentRequest (now : Z) (pg : Page) (tr : list effect)
    (w' : World) :
  step (Click PaymentRequest now)
       {| page := pg; attempt := noAttempt; trace := tr |} = Some w' ->
  gpayButton_disabled pg = false /\
  reachableShape (attempt w') /\ clicked (attempt w') = true /\
  gpayButton_disabled (page w') = busy (attempt w').
Proof.
  intros H. unfold step in H; simpl in H. next_world H.
  split; [first [reflexivity | assumption]|]. unfold busy. branches; exec;
    (split; [solve [constructor; congruence]|]); (split; [reflexivity|]);
    first [reflexivity | assumption].
Qed.

Lemma filter_busy_replaceNth (l : list Attempt) (i : nat) (a a' : Attempt) :
  nth_error l i = Some a ->
  (List.length (filter busy (replaceNth i a' l)) + Nat.b2n (busy a)
   = List.length (filter busy l) + Nat.b2n (busy a'))%nat.
Proof.
  revert i; induction l as [|x l IH]; intros [|i] H; simpl in H;
    try discriminate H.
  - injection H as ->. simpl. destruct (busy a), (busy a'); simpl; lia.
  - simpl. specialize (IH i H). destruct (busy x); simpl; lia.
Qed.

Lemma Forall_replaceNth {A : Type} (P : A -> Prop) (l : list A) (i : nat) (x : A) :
  Forall P l -> P x -> Forall P (replaceNth i x l).
Proof.
  revert i; induction l as [|y l IH]; intros i Hl Hx;
    [destruct i; simpl; constructor|].
  inversion Hl; subst. destruct i; simpl; constructor; auto.
Qed.

Lemma sessionStep_preserves_SInv (ev : sessionEvent) (s s' : Session) :
  SInv s -> sessionStep ev s = Some s' -> SInv s'.
Proof.
  intros [HF HB] H. destruct s as [pg l tr]. unfold inFlight in *.
  destruct ev as [PaymentRequest now|i e];
    unfold sessionStep, worldOf in H; cbn [s_page s_attempts s_trace] in *.
  - destruct (step (Click PaymentRequest now) _) as [w|] eqn:E;
      [|discriminate H].
    injection H as <-. unfold SInv, inFlight. cbn [s_page s_attempts].
    apply start_button in E as (Hd & Hs & Hc & Hb).
    destruct HB as [(_ & Hn)|(Hd' & _)]; [|congruence].
    split.
    + apply Forall_app; split; [exact HF|]. repeat constructor; assumption.
    + rewrite filter_app, List.length_app, Hn, Hb. simpl.
      destruct (busy (attempt w)); [right | left]; split; reflexivity.
  - destruct (nth_error l i) as [a|] eqn:En; [|discriminate H].
    destruct (step e _) as [w|] eqn:E; [|discriminate H].
    injection H as <-. unfold SInv, inFlight. cbn [s_page s_attempts].
    assert (Ha : reachableShape a /\ clicked a = true).
    { rewrite Forall_forall in HF. apply HF. eapply nth_error_In; exact En. }
    destruct Ha as [Hs Hc].
    apply callback_button in E as (Hs' & Hc' & Hcases); try assumption.
    pose proof (filter_busy_replaceNth l i a (attempt w) En) as Hcount.
    split; [apply Forall_replaceNth; auto|].
    destruct Hcases as [(B & B' & D)|[(B & B' & D)|(B & B' & D)]];
      rewrite B, B' in Hcount; simpl in Hcount; rewrite D;
      destruct HB as [(Hd & Hn)|(Hd & Hn)];
      first [ left; split; [first [reflexivity | assumption] | lia]
            | right; split; [first [reflexivity | assumption] | lia] ].
Qed.

Lemma sessionRun_preserves_SInv (evs : list sessionEvent) (s s' : Session) :
  SInv s -> sessionRun evs s = Some s' -> SInv s'.
Proof.
  revert s; induction evs as [|ev evs IH]; intros s HI H; simpl in H.
  - now injection H as <-.
  - destruct (sessionStep ev s) as [s1|] eqn:E; [|discriminate H].
    eapply IH; [eapply sessionStep_preserves_SInv; eassumption | exact H].
Qed.

End Sessions.

(** X9: over any number of clicks on one page, each starting an attempt
    whose callbacks interleave freely with those of earlier attempts, at
    most one attempt is in flight at any time, the button is disabled
    exactly while one is, and a click does not get through while one is. *)
Theorem one_attempt_in_flight
    (p : Page) (evs : list sessionEvent) (s : Session) :
  gpayButton_disabled p = false ->
  sessionRun evs (sessionLoaded p) = Some s ->
  (inFlight s <= 1)%nat /\
  (gpayButton_disabled (s_page s) = true <-> inFlight s = 1%nat) /\
  (forall PaymentRequest now,
     inFlight s = 1%nat -> sessionStep (Start PaymentRequest now) s = None).
Proof.
  intros Hp Hrun.
  assert (I0 : SInv (sessionLoaded p)).
  { split; [constructor|]. left. split; [exact Hp | reflexivity]. }
  destruct (sessionRun_preserves_SInv _ _ _ I0 Hrun) as [_ HB].
  split; [|split].
  - destruct HB as [(_ & ->)|(_ & ->)]; lia.
  - destruct HB as [(Hd & Hn)|(Hd & Hn)]; rewrite Hd, Hn;
      split; intros; congruence.
  - intros PaymentRequest now Hn.
    destruct HB as [(_ & Hn0)|(Hd & _)]; [congruence|].
    unfold sessionStep, step, worldOf; cbn [attempt page clicked noAttempt].
    rewrite Hd. reflexivity.
Qed.

Lemma one_attempt_in_flight_witness :
  exists s,
    sessionRun
      [Start Samples.accepting 1700000000000;
       Callback 0 (CanMakePaymentResolved true);
       Callback 0 (ShowResolved Samples.receipt);
       Start Samples.accepting 1700000060000;
       Callback 0 CompleteResolved;
       Callback 1 (CanMakePaymentResolved true)]
      (sessionLoaded Samples.shopPage) = Some s /\
    inFlight s = 1%nat /\ gpayButton_disabled (s_page s) = true.
Proof.
  destruct (sessionRun
              [Start Samples.accepting 1700000000000;
               Callback 0 (CanMakePaymentResolved true);
               Callback 0 (ShowResolved Samples.receipt);
               Start Samples.accepting 1700000060000;
               Callback 0 CompleteResolved;
               Callback 1 (CanMakePaymentResolved true)]
              (sessionLoaded Samples.shopPage)) as [s|] eqn:Hrun;
    [|vm_compute in Hrun; discriminate Hrun].
  exists s. split; [reflexivity|].
  destruct (one_attempt_in_flight Samples.shopPage _ s eq_refl Hrun)
    as (_ & Hiff & _).
  assert (Hd : gpayButton_disabled (s_page s) = true)
    by (vm_compute in Hrun; injection Hrun as <-; reflexivity).
  split; [apply Hiff; exact Hd | exact Hd].
Defined.

(** ** The reference of the request and the reference of the deep link *)

Section Fallback.

Lemma step_Click_constructs ctor (now : Z) (w w' : World) :
  step (Click (Some ctor) now) w = Some w' ->
  In (Construct (supportedInstruments (generateTransactionReferenceID now))
                orderDetails) (trace w').
Proof.
  intros H. unfold step in H. next_world H.
  unfold onBuyClicked; cbv zeta.
  destruct (ctor _ _); exec; apply in_or_app; right; simpl; auto.
Qed.

Lemma step_Click_without_PaymentRequest (now : Z) (p : Page) (w : World) :
  step (Click None now) (loaded p) = Some w -> forall e, step e w = None.
Proof.
  intros H. unfold step in H; simpl in H. next_world H.
  apply nothing_left_to_run; unfold onBuyClicked; exec;
    try discriminate; reflexivity.
Qed.

(** Once the presentation is rejected the page stays where it is. *)
Lemma run_after_rejection (es : list event) (w w' : World) :
  Inv w -> showP (attempt w) = Rejected -> run es w = Some w' ->
  location_href (page w') = location_href (page w).
Proof.
  revert w; induction es as [|e es IH]; intros w HI Hr H; simpl in H.
  - now injection H as <-.
  - destruct (step e w) as [w1|] eqn:E; [|discriminate H].
    destruct (step_navigation _ _ _ HI E)
      as [(_ & Eh & _ & Es)|(_ & _ & _ & Ep & _)]; [|congruence].
    rewrite <- Eh. apply IH; [eapply step_preserves_Inv; eassumption | auto | exact H].
Qed.

Lemma step_unsupported_navigates (err : JsError) (now : Z) (w w' : World) :
  name err = "NotSupportedError" ->
  step (ShowRejected err now) w = Some w' ->
  location_href (page w') = deepLink now /\ showP (attempt w') = Rejected.
Proof.
  intros E H. apply step_ShowRejected_inv in H as [_ ->].
  unfold onShowRejected. apply String.eqb_eq in E. rewrite E.
  split; exec; [reflexivity|].
  destruct (paymentTimeout (attempt w)); reflexivity.
Qed.

End Fallback.

(** X10: when an attempt falls back to the deep link, the link carries a
    reference generated at the moment of the fallback, not the one built
    into the payment request at the click: the request was constructed with
    the reference of the click's timestamp, the page ends at the deep link of
    the rejection's timestamp, and the two references differ whenever the
    two timestamps do. *)
Theorem fallback_reference_is_fresh
    (p : Page) PaymentRequest (now now' : Z) (err : JsError)
    (es : list event) (w : World) :
  name err = "NotSupportedError" ->
  In (ShowRejected err now') es ->
  run (Click PaymentRequest now :: es) (loaded p) = Some w ->
  In (Construct (supportedInstruments (generateTransactionReferenceID now))
                orderDetails) (trace w) /\
  location_href (page w) = deepLink now' /\
  deepLink now' =
    "gpay://upi/pay?pa=9110190178%40okbizaxis&pn=Ms.%20Priya%20Kumari&am=1.00&cu=INR&tr="
    ++ generateTransactionReferenceID now' /\
  (now <> now' ->
   generateTransactionReferenceID now' <> generateTransactionReferenceID now).
Proof.
  intros Ename Hin Hrun. cbn [run] in Hrun.
  destruct (step (Click PaymentRequest now) (loaded p)) as [w1|] eqn:E1;
    [|discriminate Hrun].
  pose proof (step_preserves_Inv _ _ _ (Inv_loaded p) E1) as I1.
  apply in_split in Hin as (l1 & l2 & ->).
  pose proof Hrun as Hall.
  apply run_through in Hrun as (wa & wb & Ha & Hb & Hc).
  pose proof (run_preserves_Inv _ _ _ I1 Ha) as Ia.
  pose proof (step_preserves_Inv _ _ _ Ia Hb) as Ib.
  destruct (step_unsupported_navigates _ _ _ _ Ename Hb) as [Hnav Hrej].
  split; [|split; [|split]].
  - destruct PaymentRequest as [ctor|].
    + eapply run_keeps_trace; [exact Hall|].
      eapply step_Click_constructs; exact E1.
    + exfalso. pose proof (step_Click_without_PaymentRequest _ _ _ E1) as Hend.
      destruct l1 as [|e l1]; simpl in Ha.
      * injection Ha as <-. rewrite Hend in Hb. discriminate Hb.
      * rewrite Hend in Ha. discriminate Ha.
  - rewrite <- Hnav. eapply run_after_rejection; eassumption.
  - reflexivity.
  - intros Hne E. apply Hne. symmetry.
    apply generateTransactionReferenceID_inj. exact E.
Qed.

Lemma fallback_reference_is_fresh_witness :
  exists w,
    run [Click Samples.accepting 1700000000000; CanMakePaymentResolved true;
         ShowRejected {| name := "NotSupportedError"; message := "no app" |}
                      1700000000250]
        (loaded Samples.shopPage) = Some w /\
    location_href (page w) = deepLink 1700000000250 /\
    generateTransactionReferenceID 1700000000250
    <> generateTransactionReferenceID 1700000000000.
Proof.
  destruct (run [Click Samples.accepting 1700000000000;
                 CanMakePaymentResolved true;
                 ShowRejected {| name := "NotSupportedError"; message := "no app" |}
                              1700000000250]
              (loaded Samples.shopPage)) as [w|] eqn:Hrun;
    [|vm_compute in Hrun; discriminate Hrun].
  exists w. split; [reflexivity|].
  destruct (fallback_reference_is_fresh
              Samples.shopPage Samples.accepting 1700000000000 1700000000250
              {| name := "NotSupportedError"; message := "no app" |}
              [CanMakePaymentResolved true;
               ShowRejected {| name := "NotSupportedError"; message := "no app" |}
                            1700000000250]
              w eq_refl (or_intror (or_introl eq_refl)) Hrun)
    as (_ & Hhref & _ & Hfresh).
  split; [exact Hhref | apply Hfresh; discriminate].
Defined.

(** ** The status next to a disabled button, over several attempts *)

Section SessionStatus.




(** The attempt whose acknowledgment is pending is not in flight. *)
Lemma shape_completing (a : Attempt) :
  reachableShape a -> completeP a = Pending ->
  showP a = Fulfilled /\ busy a = false.
Proof.
  intros Hs Hc; inversion Hs; subst; simpl in Hc; try discriminate Hc;
    split; reflexivity.
Qed.

Lemma inFlight_replaceNth (l : list Attempt) (i : nat) (a a' : Attempt) :
  nth_error l i = Some a -> busy a = false -> busy a' = false ->
  List.length (filter busy (replaceNth i a' l)) = List.length (filter busy l).
Proof.
  intros En B B'. pose proof (filter_busy_replaceNth l i a a' En) as H.
  rewrite B, B' in H. simpl in H. lia.
Qed.

End SessionStatus.



(** X7: over any number of clicks on one page, the acknowledgment
    [complete('success')] of an attempt is pending only after its
    presentation was fulfilled, when the attempt is no longer in flight.
    Its callback shows "Payment successful!" (success), or logs and shows
    "Error completing payment." (error) when it is rejected, and changes
    nothing else: the button, which a later attempt may have disabled, the
    location and the attempts in flight are as before. *)
Theorem acknowledgment_in_session
    (p : Page) (evs : list sessionEvent) (s : Session) (i : nat) :
  gpayButton_disabled p = false ->
  sessionRun evs (sessionLoaded p) = Some s ->
  (forall s',
     sessionStep (Callback i CompleteResolved) s = Some s' ->
     (exists a, nth_error (s_attempts s) i = Some a /\
                showP a = Fulfilled /\ busy a = false) /\
     s_trace s' = (s_trace s ++ [ShowStatus "Payment successful!" "success"])%list /\
     statusMessage_textContent (s_page s') = "Payment successful!" /\
     statusMessage_className (s_page s') = "success" /\
     gpayButton_disabled (s_page s') = gpayButton_disabled (s_page s) /\
     location_href (s_page s') = location_href (s_page s) /\
     inFlight s' = inFlight s) /\
  (forall err s',
     sessionStep (Callback i (CompleteRejected err)) s = Some s' ->
     (exists a, nth_error (s_attempts s) i = Some a /\
                showP a = Fulfilled /\ busy a = false) /\
     s_trace s' =
       (s_trace s ++
        [ConsoleError [VString "Error completing payment:"; VError err];
         ShowStatus "Error completing payment." "error"])%list /\
     statusMessage_textContent (s_page s') = "Error completing payment." /\
     statusMessage_className (s_page s') = "error" /\
     gpayButton_disabled (s_page s') = gpayButton_disabled (s_page s) /\
     location_href (s_page s') = location_href (s_page s) /\
     inFlight s' = inFlight s).
Proof.
  intros Hp Hrun.
  assert (I0 : SInv (sessionLoaded p)).
  { split; [constructor|]. left. split; [exact Hp | reflexivity]. }
  destruct (sessionRun_preserves_SInv _ _ _ I0 Hrun) as [HF _].
  destruct s as [pg l tr]. unfold inFlight. cbn [s_page s_attempts s_trace] in *.
  split; [intros s' H | intros err s' H];
    unfold sessionStep, worldOf in H; cbn [s_page s_attempts s_trace] in H;
    destruct (nth_error l i) as [a|] eqn:En; try discriminate H;
    (assert (Ha : reachableShape a)
       by (rewrite Forall_forall in HF;
           apply (HF a (nth_error_In _ _ En))));
    unfold step in H; cbn [attempt] in H;
    destruct (completeP a) eqn:Ec; try discriminate H;
    destruct (shape_completing a Ha Ec) as [Hf Hb];
    injection H as <-; cbn [s_page s_attempts s_trace];
    (split; [exists a; auto|]);
    (split; [exec; reflexivity|]); (split; [exec; reflexivity|]);
    (split; [exec; reflexivity|]); (split; [exec; reflexivity|]);
    (split; [exec; reflexivity|]);
    apply (inFlight_replaceNth l i a); try assumption;
    exec; unfold busy in *; cbn [canMakePaymentP showP] in *; exact Hb.
Qed.

Lemma acknowledgment_in_session_witness :
  exists s s',
    sessionRun
      [Start Samples.accepting 1700000000000;
       Callback 0 (CanMakePaymentResolved true);
       Callback 0 (ShowResolved Samples.receipt);
       Start Samples.accepting 1700000060000]
      (sessionLoaded Samples.shopPage) = Some s /\
    sessionStep (Callback 0 CompleteResolved) s = Some s' /\
    statusMessage_textContent (s_page s') = "Payment successful!" /\
    gpayButton_disabled (s_page s') = gpayButton_disabled (s_page s) /\
    gpayButton_disabled (s_page s) = true.
Proof.
  destruct (sessionRun
              [Start Samples.accepting 1700000000000;
               Callback 0 (CanMakePaymentResolved true);
               Callback 0 (ShowResolved Samples.receipt);
               Start Samples.accepting 1700000060000]
              (sessionLoaded Samples.shopPage)) as [s|] eqn:Hrun;
    [|vm_compute in Hrun; discriminate Hrun].
  destruct (sessionStep (Callback 0 CompleteResolved) s) as [s'|] eqn:Hstep;
    [|vm_compute in Hrun; injection Hrun as <-;
      vm_compute in Hstep; discriminate Hstep].
  exists s, s'.
  destruct (acknowledgment_in_session Samples.shopPage _ s 0%nat eq_refl Hrun)
    as (Hok & _).
  destruct (Hok _ Hstep) as (_ & _ & Htext & _ & Hbutton & _ & _).
  split; [reflexivity|]. split; [exact Hstep|].
  split; [exact Htext|]. split; [exact Hbutton|].
  vm_compute in Hrun. injection Hrun as <-. reflexivity.
Defined.

(** ** Which side writes the status *)

Section Sides.

Lemma statusWrites_emit_chain (w w' : World) (fx : list effect) :
  trace w' = (trace w ++ fx)%list ->
  statusWrites w' = (statusWrites w + List.length (filter isShowStatus fx))%nat.
Proof.
  intros E. unfold statusWrites. now rewrite E, filter_app, List.length_app.
Qed.

(** Of the timer's callbacks only that of a successful abort calls
    showStatus. *)
Lemma timerSide_writes (e : event) (w w' : World) :
  step e w = Some w' ->
  timerSide e && writesStatus e w = isAbortResolved e.
Proof.
  intros H. unfold writesStatus. rewrite H.
  destruct e; try reflexivity; cbn [timerSide isAbortResolved andb].
  - apply step_TimerFired_inv in H as (d & _ & _ & ->).
    rewrite (statusWrites_emit_chain w _ [CallClearTimeout; CallAbort])
      by (exec; reflexivity).
    simpl. now rewrite Nat.add_0_r, Nat.eqb_refl.
  - apply step_AbortResolved_inv in H as [_ ->].
    rewrite (statusWrites_emit_chain w _
               [ConsoleLog [VString "Payment timed out after 20 minutes."];
                ShowStatus "Payment timed out." "error"])
      by (exec; reflexivity).
    simpl. destruct (Nat.eqb_spec (statusWrites w + 1) (statusWrites w));
      [lia | reflexivity].
  - apply step_AbortRejected_inv in H as [_ ->].
    rewrite (statusWrites_emit_chain w _
               [ConsoleLog
                  [VString "Unable to abort, user is in the process of paying."]])
      by (exec; reflexivity).
    simpl. now rewrite Nat.add_0_r, Nat.eqb_refl.
Qed.

Lemma sideWrote_timerSide (es : list event) (w w' : World) :
  run es w = Some w' ->
  sideWrote timerSide es w = existsb isAbortResolved es.
Proof.
  revert w; induction es as [|e es IH]; intros w H; simpl in *;
    [reflexivity|].
  destruct (step e w) as [w1|] eqn:E; [|discriminate H].
  now rewrite (timerSide_writes _ _ _ E), (IH w1 H).
Qed.

End Sides.

(** X13: in an attempt the timer's side writes the status exactly when the
    abort succeeded: the timer's own callback and the callback of a failed
    abort never call showStatus.  So when the timer fires and the abort
    fails, as when the timer never fires, the presentation alone writes the
    status. *)
Theorem timer_side_writes_iff_abort_succeeded
    (p : Page) (es : list event) (w : World) :
  run es (loaded p) = Some w ->
  sideWrote timerSide es (loaded p) = existsb isAbortResolved es.
Proof. apply sideWrote_timerSide. Qed.

Lemma timer_side_writes_iff_abort_succeeded_witness :
  sideWrote timerSide
    [Click Samples.accepting 1700000000000; CanMakePaymentResolved true;
     TimerFired 1200003; AbortRejected;
     ShowResolved Samples.receipt; CompleteResolved]
    (loaded Samples.shopPage) = false.
Proof.
  destruct (run [Click Samples.accepting 1700000000000;
                 CanMakePaymentResolved true; TimerFired 1200003; AbortRejected;
                 ShowResolved Samples.receipt; CompleteResolved]
              (loaded Samples.shopPage)) as [w|] eqn:Hrun;
    [|vm_compute in Hrun; discriminate Hrun].
  exact (timer_side_writes_iff_abort_succeeded Samples.shopPage _ w Hrun).
Defined.
